(** * PARMCO motor controller: a shallow embedding of
      [srcs/motor_control_ble_pipe.c] and the properties of its
      actuator, PID controller, RPM estimator, command interpreter and
      control loop.

    Conventions of the embedding.
    - C [int] and [uint32_t] values are integers of [Z]; the places where
      the C arithmetic can wrap apply [int32] or [u32] explicitly.
    - C [double] is IEEE binary64, i.e. Rocq's primitive [float]
      (round-to-nearest-even, one operation per C operator, no fused
      multiply-add).
    - Global variables live in records that are passed along explicitly;
      the GPIO outputs are a record of the four lines the program drives;
      every call to the outside world (printf, gpioPWM, gpioWrite, open,
      close, fputs) is also appended to a trace, oldest event first.
    - Values the program obtains from the outside world ([gpioTick], the
      result of [select], the line returned by [fgets], ...) are arguments
      of the functions that consume them. *)

From Stdlib Require Import ZArith List String Ascii Bool Lia Floats.
From stdpp Require Import list.
Import ListNotations.

Local Open Scope string_scope.
Local Open Scope Z_scope.

(* ===================================================================== *)
(** * 1. Machine integers and doubles *)
(* ===================================================================== *)

Definition INT_MIN : Z := - 2 ^ 31.
Definition INT_MAX : Z := 2 ^ 31 - 1.

(** Two's-complement reduction of an [int] result. *)
Definition int32 (z : Z) : Z := (z + 2 ^ 31) mod 2 ^ 32 - 2 ^ 31.

(** Reduction of a [uint32_t] result. *)
Definition u32 (z : Z) : Z := z mod 2 ^ 32.

(** What lies outside the translation unit: the two libc parsers used by
    [processCommand], and the result of converting to [int] a double that
    [int] cannot represent (NaN, infinities, magnitudes beyond 2^31),
    which ISO C leaves undefined and the target fixes (0 on ARM,
    [INT_MIN] on x86). *)
Class Platform : Type := {
  atof : string -> float;
  atoi : string -> Z;
  cast_undef : float -> Z
}.

(** Truncation toward zero of a binary64 value given by its sign, mantissa
    and exponent; [None] for infinities and NaN. *)
Definition trunc_sf (f : spec_float) : option Z :=
  match f with
  | S754_zero _ => Some 0
  | S754_finite s m e =>
      let a := if 0 <=? e then Z.pos m * 2 ^ e else Z.quot (Z.pos m) (2 ^ (- e)) in
      Some (if s then - a else a)
  | S754_infinity _ => None
  | S754_nan => None
  end.

(** The C conversion [(int)x]. *)
Definition int_of_double `{Platform} (x : float) : Z :=
  match trunc_sf (Prim2SF x) with
  | Some z => if (INT_MIN <=? z) && (z <=? INT_MAX) then z else cast_undef x
  | None => cast_undef x
  end.

(** Conversion of a small non-negative integer to [double] (exact below
    2^53). *)
Definition double_of_Z (z : Z) : float := PrimFloat.of_uint63 (Uint63.of_Z z).

(* ===================================================================== *)
(** * 2. Constants of the program *)
(* ===================================================================== *)

Definition MOTOR_ENABLE_PIN : Z := 17.
Definition MOTOR_IN1_PIN : Z := 23.
Definition MOTOR_IN2_PIN : Z := 24.
Definition LED_PIN : Z := 25.
Definition IR_SENSOR_PIN : Z := 5.

Definition NUM_BLADES : Z := 3.
Definition RPM_CALCULATION_WINDOW_MS : Z := 500.
Definition RPM_UPDATE_INTERVAL_MS : Z := 100.

Definition KP : float := 0x1.eb851eb851eb8p-6%float.   (* 0.03 *)
Definition KI : float := 0x1.47ae147ae147bp-8%float.   (* 0.005 *)
Definition KD : float := 0x1.47ae147ae147bp-7%float.   (* 0.01 *)
Definition MAX_INTEGRAL : float := 50%float.
Definition MAX_SPEED_CHANGE : Z := 2.
Definition RPM_STABILIZE_DELAY_US : Z := 500000.

(* ===================================================================== *)
(** * 3. State *)
(* ===================================================================== *)

(** The globals owned by the control-loop thread. *)
Record Globals : Type := mkGlobals {
  g_speed : Z;
  g_motor_on : Z;
  g_direction : Z;
  g_quit : Z;
  g_control_mode : Z;               (* 0 = manual, 1 = automatic *)
  g_desired_rpm : float;
  g_pid_integral : float;
  g_pid_last_error : float;
  g_last_speed_change_time : Z      (* uint32_t; 0 = unset *)
}.

Definition set_speed_var (v : Z) (g : Globals) : Globals :=
  mkGlobals v (g_motor_on g) (g_direction g) (g_quit g) (g_control_mode g)
            (g_desired_rpm g) (g_pid_integral g) (g_pid_last_error g)
            (g_last_speed_change_time g).
Definition set_motor_on (v : Z) (g : Globals) : Globals :=
  mkGlobals (g_speed g) v (g_direction g) (g_quit g) (g_control_mode g)
            (g_desired_rpm g) (g_pid_integral g) (g_pid_last_error g)
            (g_last_speed_change_time g).
Definition set_direction_var (v : Z) (g : Globals) : Globals :=
  mkGlobals (g_speed g) (g_motor_on g) v (g_quit g) (g_control_mode g)
            (g_desired_rpm g) (g_pid_integral g) (g_pid_last_error g)
            (g_last_speed_change_time g).
Definition set_quit (v : Z) (g : Globals) : Globals :=
  mkGlobals (g_speed g) (g_motor_on g) (g_direction g) v (g_control_mode g)
            (g_desired_rpm g) (g_pid_integral g) (g_pid_last_error g)
            (g_last_speed_change_time g).
Definition set_control_mode (v : Z) (g : Globals) : Globals :=
  mkGlobals (g_speed g) (g_motor_on g) (g_direction g) (g_quit g) v
            (g_desired_rpm g) (g_pid_integral g) (g_pid_last_error g)
            (g_last_speed_change_time g).
Definition set_desired_rpm (v : float) (g : Globals) : Globals :=
  mkGlobals (g_speed g) (g_motor_on g) (g_direction g) (g_quit g)
            (g_control_mode g) v (g_pid_integral g) (g_pid_last_error g)
            (g_last_speed_change_time g).
Definition set_pid_integral (v : float) (g : Globals) : Globals :=
  mkGlobals (g_speed g) (g_motor_on g) (g_direction g) (g_quit g)
            (g_control_mode g) (g_desired_rpm g) v (g_pid_last_error g)
            (g_last_speed_change_time g).
Definition set_pid_last_error (v : float) (g : Globals) : Globals :=
  mkGlobals (g_speed g) (g_motor_on g) (g_direction g) (g_quit g)
            (g_control_mode g) (g_desired_rpm g) (g_pid_integral g) v
            (g_last_speed_change_time g).
Definition set_last_speed_change_time (v : Z) (g : Globals) : Globals :=
  mkGlobals (g_speed g) (g_motor_on g) (g_direction g) (g_quit g)
            (g_control_mode g) (g_desired_rpm g) (g_pid_integral g)
            (g_pid_last_error g) v.

(** Startup values of the globals (the initialisers of the C file). *)
Definition initial_globals : Globals :=
  mkGlobals 0 0 1 0 0 0%float 0%float 0%float 0.

(** The four output lines: the PWM duty on the enable pin and the levels
    of the two direction pins and of the LED. *)
Record Pins : Type := mkPins {
  pwm_enable : Z;
  in1 : Z;
  in2 : Z;
  led : Z
}.

(** Arguments of a [printf]. *)
Inductive parg : Type :=
  | AInt (z : Z)
  | ADbl (d : float)
  | AStr (s : string).

(** Calls to the outside world.  Format strings are recorded without
    their leading carriage return, their trailing newline and their
    decorative glyphs. *)
Inductive event : Type :=
  | Printf (fmt : string) (args : list parg)
  | GpioPWM (pin duty : Z)
  | GpioWrite (pin level : Z)
  | Open (path : string) (fd : Z)
  | Fdopen (fd : Z) (ok : bool)
  | Fclose (path : string)
  | Close (fd : Z)
  | Fputs (path : string) (line : string) (arg : float) (ok : bool)
  | Perror (s : string).

(** The part of the process state that the motor and command functions
    touch. *)
Record World : Type := mkWorld {
  glob : Globals;
  pins : Pins;
  trace : list event
}.

Definition with_glob (f : Globals -> Globals) (w : World) : World :=
  mkWorld (f (glob w)) (pins w) (trace w).

Definition emit (e : event) (w : World) : World :=
  mkWorld (glob w) (pins w) (trace w ++ [e]).

Definition printf (fmt : string) (args : list parg) (w : World) : World :=
  emit (Printf fmt args) w.

(** [gpioPWM(pin, duty)]: only the enable pin carries PWM. *)
Definition gpioPWM (pin duty : Z) (w : World) : World :=
  let p := pins w in
  let p' := if pin =? MOTOR_ENABLE_PIN then mkPins duty (in1 p) (in2 p) (led p) else p in
  mkWorld (glob w) p' (trace w ++ [GpioPWM pin duty]).

(** [gpioWrite(pin, level)]. *)
Definition gpioWrite (pin level : Z) (w : World) : World :=
  let p := pins w in
  let p' :=
    if pin =? MOTOR_IN1_PIN then mkPins (pwm_enable p) level (in2 p) (led p)
    else if pin =? MOTOR_IN2_PIN then mkPins (pwm_enable p) (in1 p) level (led p)
    else if pin =? LED_PIN then mkPins (pwm_enable p) (in1 p) (in2 p) level
    else p in
  mkWorld (glob w) p' (trace w ++ [GpioWrite pin level]).

(* ===================================================================== *)
(** * 4. Motor actuator *)
(* ===================================================================== *)

Definition setDirection (dir : Z) (w : World) : World :=
  let w := with_glob (set_direction_var dir) w in
  if dir =? 1 then
    let w := printf "-> Direction: FORWARD" [] w in
    let w := gpioWrite MOTOR_IN1_PIN 1 w in
    gpioWrite MOTOR_IN2_PIN 0 w
  else
    let w := printf "-> Direction: REVERSE" [] w in
    let w := gpioWrite MOTOR_IN1_PIN 0 w in
    gpioWrite MOTOR_IN2_PIN 1 w.

Definition setSpeed (speed : Z) (w : World) : World :=
  let speed := if speed <? 0 then 0 else speed in
  let speed := if speed >? 100 then 100 else speed in
  let w := with_glob (set_speed_var speed) w in
  let w := printf "-> Speed: %d%%" [AInt speed] w in
  if speed =? 0 then
    let w := with_glob (set_motor_on 0) w in
    let w := gpioPWM MOTOR_ENABLE_PIN 0 w in
    gpioWrite LED_PIN 0 w
  else
    let w := with_glob (set_motor_on 1) w in
    let pwm_value := Z.quot (int32 (speed * 255)) 100 in
    let w := gpioPWM MOTOR_ENABLE_PIN pwm_value w in
    gpioWrite LED_PIN 1 w.

Definition motorOn (w : World) : World :=
  if negb (g_motor_on (glob w) =? 0) then
    printf "-> Motor already ON" [] w
  else
    let w := if g_speed (glob w) =? 0 then with_glob (set_speed_var 50) w else w in
    let w := with_glob (set_motor_on 1) w in
    let w := setDirection (g_direction (glob w)) w in
    let w := setSpeed (g_speed (glob w)) w in
    printf "-> Motor ON" [] w.

Definition motorOff (w : World) : World :=
  let w := printf "-> Motor OFF" [] w in
  let w := with_glob (set_motor_on 0) w in
  let w := gpioPWM MOTOR_ENABLE_PIN 0 w in
  let w := gpioWrite MOTOR_IN1_PIN 0 w in
  let w := gpioWrite MOTOR_IN2_PIN 0 w in
  gpioWrite LED_PIN 0 w.

(* ===================================================================== *)
(** * 5. PID controller *)
(* ===================================================================== *)

(** The elapsed-time idiom of the program on the 32-bit microsecond tick:
    [elapsed = current_time - last; if (current_time < last) elapsed =
    (0xFFFFFFFF - last) + current_time;], all in [uint32_t]. *)
Definition tick_elapsed (current_time last : Z) : Z :=
  let elapsed := u32 (current_time - last) in
  if current_time <? last then u32 (u32 (0xFFFFFFFF - last) + current_time)
  else elapsed.

(** The integral accumulator after one evaluation (anti-windup gate and
    clamp). *)
Definition pid_integral_step (error integral : float) : float :=
  if (PrimFloat.abs error <? 500)%float then
    let i := (integral + error)%float in
    let i := if (MAX_INTEGRAL <? i)%float then MAX_INTEGRAL else i in
    if (i <? - MAX_INTEGRAL)%float then (- MAX_INTEGRAL)%float else i
  else integral.

(** [p_term + i_term + d_term] before rate limiting. *)
Definition pid_adjustment (current_rpm desired_rpm : float) (g : Globals) : float :=
  let error := (desired_rpm - current_rpm)%float in
  let p_term := (KP * error)%float in
  let i_term := (KI * pid_integral_step error (g_pid_integral g))%float in
  let d_term := (KD * (error - g_pid_last_error g))%float in
  (p_term + i_term + d_term)%float.

(** The two rate-limiting comparisons against [MAX_SPEED_CHANGE]. *)
Definition rate_limit (adjustment : float) : float :=
  let a := if (double_of_Z MAX_SPEED_CHANGE <? adjustment)%float
           then double_of_Z MAX_SPEED_CHANGE else adjustment in
  if (a <? - double_of_Z MAX_SPEED_CHANGE)%float
  then (- double_of_Z MAX_SPEED_CHANGE)%float else a.

(** [pidController(current_rpm, desired_rpm)]; [tick1] and [tick2] are
    the values returned by its two calls of [gpioTick]. *)
Definition pidController `{Platform} (current_rpm desired_rpm : float)
    (tick1 tick2 : Z) (g : Globals) : Z * Globals :=
  if (desired_rpm <? 1)%float then
    (0, set_last_speed_change_time 0
          (set_pid_last_error 0%float (set_pid_integral 0%float g)))
  else
    let current_time := tick1 in
    if (g_last_speed_change_time g >? 0)
       && (tick_elapsed current_time (g_last_speed_change_time g)
           <? RPM_STABILIZE_DELAY_US)
    then (g_speed g, g)
    else
      let error := (desired_rpm - current_rpm)%float in
      let adjustment := rate_limit (pid_adjustment current_rpm desired_rpm g) in
      let g := set_pid_integral (pid_integral_step error (g_pid_integral g)) g in
      let g := set_pid_last_error error g in
      let current_speed := g_speed g in
      let new_speed := int32 (current_speed + int_of_double adjustment) in
      let new_speed := if new_speed <? 0 then 0 else new_speed in
      let new_speed := if new_speed >? 100 then 100 else new_speed in
      let new_speed :=
        if (current_speed =? 0) && (new_speed >? 0) && (new_speed <? 20)
        then 20 else new_speed in
      let g := if negb (new_speed =? current_speed)
               then set_last_speed_change_time tick2 g else g in
      (new_speed, g).

(* ===================================================================== *)
(** * 6. Command interpreter *)
(* ===================================================================== *)

(** [input[strcspn(input, c)] = 0]: cut the string at the first [c]. *)
Fixpoint cut_at (c : ascii) (s : string) : string :=
  match s with
  | EmptyString => EmptyString
  | String a r => if Ascii.eqb a c then EmptyString else String a (cut_at c r)
  end.

(** [strncmp(s1, s2, n) == 0]. *)
Fixpoint strncmp_eq (s1 s2 : string) (n : nat) {struct n} : bool :=
  match n with
  | O => true
  | S n =>
      match s1, s2 with
      | EmptyString, EmptyString => true
      | String a r1, String b r2 => Ascii.eqb a b && strncmp_eq r1 r2 n
      | _, _ => false
      end
  end.

(** [&input[n]] for [n] within the string. *)
Fixpoint string_from (n : nat) (s : string) : string :=
  match n, s with
  | O, _ => s
  | S n, String _ r => string_from n r
  | S _, EmptyString => EmptyString
  end.

(** [input[0] == 's' && input[1] == ' ']. *)
Definition is_speed_command (input : string) : bool :=
  match input with
  | String a (String b _) => Ascii.eqb a "s"%char && Ascii.eqb b " "%char
  | _ => false
  end.

(** [processCommand(input)]; [rpm] is the value of [g_current_rpm] that
    the [rpm] command reads under the mutex. *)
Definition processCommand `{Platform} (rpm : float) (input : string)
    (w : World) : World :=
  let input := cut_at "010"%char input in
  let input := cut_at "013"%char input in
  if (String.length input =? 0)%nat then w else
  let w := printf "-> Command: [%s]" [AStr input] w in
  if strncmp_eq input "auto " 5 then
    let desired := atof (string_from 5 input) in
    let desired := if (desired <? 0)%float then 0%float else desired in
    let desired := if (10000 <? desired)%float then 10000%float else desired in
    let w := with_glob (set_desired_rpm desired) w in
    let w := with_glob (set_control_mode 1) w in
    let w := with_glob (set_pid_integral 0%float) w in
    let w := with_glob (set_pid_last_error 0%float) w in
    let w := printf "-> AUTOMATIC MODE: Target RPM = %.2f"
                    [ADbl (g_desired_rpm (glob w))] w in
    if (0 <? g_desired_rpm (glob w))%float then
      if g_motor_on (glob w) =? 0 then
        let w := with_glob (set_motor_on 1) w in
        let w := setDirection (g_direction (glob w)) w in
        let w := if g_speed (glob w) =? 0
                 then with_glob (set_speed_var 30) w else w in
        setSpeed (g_speed (glob w)) w
      else w
    else motorOff w
  else if String.eqb input "manual" then
    let w := with_glob (set_control_mode 0) w in
    printf "-> MANUAL MODE" [] w
  else if String.eqb input "on" then motorOn w
  else if String.eqb input "off" then motorOff w
  else if String.eqb input "f" then setDirection 1 w
  else if String.eqb input "r" then setDirection 0 w
  else if String.eqb input "rpm" then printf "-> RPM: %.2f" [ADbl rpm] w
  else if String.eqb input "q" then with_glob (set_quit 1) w
  else if g_control_mode (glob w) =? 1 then
    let w := printf "-> ERROR: In AUTOMATIC mode. Manual speed control disabled." [] w in
    printf "   Use 'auto <rpm>' to change target, or 'manual' to switch modes." [] w
  else if String.eqb input "+" then setSpeed (int32 (g_speed (glob w) + 10)) w
  else if String.eqb input "-" then setSpeed (int32 (g_speed (glob w) - 10)) w
  else if is_speed_command input then setSpeed (atoi (string_from 2 input)) w
  else printf "Unknown command: %s" [AStr input] w.

(* ===================================================================== *)
(** * 7. RPM estimator (the sampling thread) *)
(* ===================================================================== *)

(** Width of [unsigned long]; the ring index and the saturating count
    never leave [0, 1000], only [g_pulse_count] can wrap. *)
Definition ulong (z : Z) : Z := z mod 2 ^ 64.

(** Locals of [rpmThread] together with the two globals it writes. *)
Record RpmState : Type := mkRpmState {
  last_state : Z;
  pulse_times : list Z;          (* uint32_t pulse_times[1000] *)
  pulse_count : Z;
  pulse_index : Z;
  last_update : Z;               (* static uint32_t *)
  g_pulse_count : Z;
  g_current_rpm : float
}.

(** The body of the edge-detection branch; [current_time] is the tick
    read for the edge. *)
Definition recordEdge (current_time : Z) (r : RpmState) : RpmState :=
  let times := <[Z.to_nat (pulse_index r) := current_time]> (pulse_times r) in
  let index := ulong (pulse_index r + 1) mod 1000 in
  let count := if pulse_count r <? 1000 then ulong (pulse_count r + 1)
               else pulse_count r in
  mkRpmState (last_state r) times count index (last_update r)
             (ulong (g_pulse_count r + 1)) (g_current_rpm r).

(** One iteration of the counting loop: the entry at offset [i] of the
    scan is counted when [current_time >= pulse_time] and the difference
    is at most the window.  A read outside the array cannot happen ([idx]
    is below 1000); the embedding returns 0 there. *)
Definition scan_step (times : list Z) (index count_to_check current_time : Z)
    (pulses_in_window i : Z) : Z :=
  let idx := ulong (index + 1000 - count_to_check + i) mod 1000 in
  let pulse_time := default 0 (times !! Z.to_nat idx) in
  if current_time >=? pulse_time then
    let age := u32 (current_time - pulse_time) in
    if age <=? RPM_CALCULATION_WINDOW_MS * 1000
    then ulong (pulses_in_window + 1) else pulses_in_window
  else pulses_in_window.

(** The [for] loop over the ring. *)
Definition count_pulses_in_window (r : RpmState) (current_time : Z) : Z :=
  let count_to_check := if pulse_count r <? 1000 then pulse_count r else 1000 in
  fold_left (scan_step (pulse_times r) (pulse_index r) count_to_check current_time)
            (seqZ 0 count_to_check) 0.

(** [(pulses / (double)NUM_BLADES) * (60.0 / window_seconds)]. *)
Definition rpm_of_pulses (pulses_in_window : Z) : float :=
  let window_seconds := (double_of_Z RPM_CALCULATION_WINDOW_MS / 1000)%float in
  (double_of_Z pulses_in_window / double_of_Z NUM_BLADES
   * (60 / window_seconds))%float.

(** The value assigned to [g_current_rpm] when the update is due. *)
Definition computeRPM (r : RpmState) (current_time : Z) : float :=
  if pulse_count r >? 0 then rpm_of_pulses (count_pulses_in_window r current_time)
  else 0%float.

(** The periodic part of the thread loop; [current_time] is the tick read
    after the edge detection.  (The variables [window_ago] and
    [window_ago_adjusted] of the source are computed and never used.) *)
Definition rpmUpdate (current_time : Z) (r : RpmState) : RpmState :=
  let last := if last_update r =? 0 then current_time else last_update r in
  let elapsed := tick_elapsed current_time last in
  if elapsed >=? RPM_UPDATE_INTERVAL_MS * 1000 then
    mkRpmState (last_state r) (pulse_times r) (pulse_count r) (pulse_index r)
               current_time (g_pulse_count r) (computeRPM r current_time)
  else
    mkRpmState (last_state r) (pulse_times r) (pulse_count r) (pulse_index r)
               last (g_pulse_count r) (g_current_rpm r).

(** One iteration of [while (!g_quit)] in [rpmThread]: [current_state] is
    the sensor level, [edge_tick] and [update_tick] the two tick reads. *)
Definition rpmThread_step (current_state edge_tick update_tick : Z)
    (r : RpmState) : RpmState :=
  let r := if negb (last_state r =? -1) && negb (last_state r =? current_state)
           then recordEdge edge_tick r else r in
  let r := mkRpmState current_state (pulse_times r) (pulse_count r)
                      (pulse_index r) (last_update r) (g_pulse_count r)
                      (g_current_rpm r) in
  rpmUpdate update_tick r.

(** State of the thread when it enters its loop: [buf] is the content of
    the uninitialised array, [s0] the first sensor reading. *)
Definition rpm_start (buf : list Z) (s0 : Z) : RpmState :=
  mkRpmState s0 buf 0 0 0 0 0%float.

(** Reference estimate, written from the specification of the estimator:
    the age of an edge is the wrap-around difference [now - t] on the
    32-bit tick, an edge is in the window when its age is at most the
    window length, and the estimate is [(k / b) * (60 / 0.5)]. *)
Definition ref_age (now t : Z) : Z := (now - t) mod 2 ^ 32.

Definition ref_edges_in_window (now : Z) (log : list Z) : Z :=
  Z.of_nat (length (List.filter (fun t => ref_age now t <=? 500000) log)).

Definition ref_estimate (b : Z) (now : Z) (log : list Z) : float :=
  match log with
  | [] => 0%float
  | _ => (double_of_Z (ref_edges_in_window now log) / double_of_Z b
          * (60 / 0x1p-1))%float
  end.

(** The edges held by the ring, oldest first (the entries the scan
    visits, in scan order). *)
Definition logged_edges (r : RpmState) : list Z :=
  let count_to_check := if pulse_count r <? 1000 then pulse_count r else 1000 in
  map (fun i => default 0 (pulse_times r !!
                  Z.to_nat (ulong (pulse_index r + 1000 - count_to_check + i) mod 1000)))
      (seqZ 0 count_to_check).

(* ===================================================================== *)
(** * 8. Command/status bridge and control loop *)
(* ===================================================================== *)

Definition FIFO_PATH : string := "/tmp/motor_pipe".
Definition RPM_FIFO_PATH : string := "/tmp/rpm_pipe".

(** The pipe globals and the two reconnect counters of [main]. *)
Record Bridge : Type := mkBridge {
  g_pipe_fd : Z;
  g_pipe_stream : bool;            (* [true] when the FILE* is not NULL *)
  g_rpm_pipe_fd : Z;
  g_rpm_pipe_stream : bool;
  pipe_reconnect_timer : Z;
  rpm_reconnect_timer : Z          (* static int *)
}.

Record Proc : Type := mkProc {
  world : World;
  bridge : Bridge
}.

Definition on_world (f : World -> World) (p : Proc) : Proc :=
  mkProc (f (world p)) (bridge p).

Definition initial_proc : Proc :=
  mkProc (mkWorld initial_globals (mkPins 0 0 0 0) [])
         (mkBridge (-1) false (-1) false 0 0).

(** What the outside world answers during one pass through the loop. *)
Record CycleEnv : Type := mkCycleEnv {
  sel_ready : Z;                   (* value returned by select *)
  sel_eintr : bool;                (* errno == EINTR after a failed select *)
  sel_stdin : bool;                (* FD_ISSET(STDIN_FILENO, &readfds) *)
  sel_pipe : bool;                 (* FD_ISSET(g_pipe_fd, &readfds) *)
  stdin_line : option string;      (* fgets on stdin, [None] for NULL *)
  pipe_line : option string;       (* fgets on the command pipe *)
  rpm_stdin : float;               (* g_current_rpm when a console [rpm] reads it *)
  rpm_pipe : float;                (* ... when a pipe [rpm] reads it *)
  rpm_periodic : float;            (* ... when the periodic work reads it *)
  pid_tick1 : Z;                   (* gpioTick inside pidController *)
  pid_tick2 : Z;
  fputs_ok : bool;                 (* fputs(...) >= 0 on the status pipe *)
  open_cmd_fd : Z;                 (* open(FIFO_PATH, ...) *)
  fdopen_cmd_ok : bool;
  open_rpm_fd : Z;                 (* open(RPM_FIFO_PATH, ...) *)
  fdopen_rpm_ok : bool
}.

Definition openPipe (fd : Z) (fdopen_ok : bool) (p : Proc) : Proc :=
  let b := bridge p in
  let p := on_world (emit (Open FIFO_PATH fd)) p in
  let p := mkProc (world p)
             (mkBridge fd (g_pipe_stream b) (g_rpm_pipe_fd b)
                       (g_rpm_pipe_stream b) (pipe_reconnect_timer b)
                       (rpm_reconnect_timer b)) in
  if fd =? -1 then p
  else
    let p := on_world (emit (Fdopen fd fdopen_ok)) p in
    let b := bridge p in
    if fdopen_ok then
      let p := mkProc (world p)
                 (mkBridge (g_pipe_fd b) true (g_rpm_pipe_fd b)
                           (g_rpm_pipe_stream b) (pipe_reconnect_timer b)
                           (rpm_reconnect_timer b)) in
      on_world (printf "BLE pipe connected! Ready for iPhone commands." []) p
    else
      let p := on_world (emit (Close fd)) p in
      mkProc (world p)
             (mkBridge (-1) false (g_rpm_pipe_fd b)
                       (g_rpm_pipe_stream b) (pipe_reconnect_timer b)
                       (rpm_reconnect_timer b)).

Definition closePipe (p : Proc) : Proc :=
  let b := bridge p in
  let p := if g_pipe_stream b then on_world (emit (Fclose FIFO_PATH)) p else p in
  let p := if negb (g_pipe_fd b =? -1)
           then on_world (emit (Close (g_pipe_fd b))) p else p in
  mkProc (world p)
         (mkBridge (-1) false (g_rpm_pipe_fd b) (g_rpm_pipe_stream b)
                   (pipe_reconnect_timer b) (rpm_reconnect_timer b)).

Definition openRPMPipe (fd : Z) (fdopen_ok : bool) (p : Proc) : Proc :=
  let b := bridge p in
  let p := on_world (emit (Open RPM_FIFO_PATH fd)) p in
  let p := mkProc (world p)
             (mkBridge (g_pipe_fd b) (g_pipe_stream b) fd
                       (g_rpm_pipe_stream b) (pipe_reconnect_timer b)
                       (rpm_reconnect_timer b)) in
  if fd =? -1 then p
  else
    let p := on_world (emit (Fdopen fd fdopen_ok)) p in
    if fdopen_ok then
      let p := mkProc (world p)
                 (mkBridge (g_pipe_fd b) (g_pipe_stream b) fd true
                           (pipe_reconnect_timer b) (rpm_reconnect_timer b)) in
      on_world (printf "RPM pipe connected! Sending RPM updates to BLE server." []) p
    else
      let p := on_world (emit (Close fd)) p in
      mkProc (world p)
             (mkBridge (g_pipe_fd b) (g_pipe_stream b) (-1) false
                       (pipe_reconnect_timer b) (rpm_reconnect_timer b)).

Definition closeRPMPipe (p : Proc) : Proc :=
  let b := bridge p in
  let p := if g_rpm_pipe_stream b
           then on_world (emit (Fclose RPM_FIFO_PATH)) p else p in
  let p := if negb (g_rpm_pipe_fd b =? -1)
           then on_world (emit (Close (g_rpm_pipe_fd b))) p else p in
  mkProc (world p)
         (mkBridge (g_pipe_fd b) (g_pipe_stream b) (-1) false
                   (pipe_reconnect_timer b) (rpm_reconnect_timer b)).

Definition sendRPM (rpm : float) (ok : bool) (p : Proc) : Proc :=
  if g_rpm_pipe_stream (bridge p) then
    let p := on_world (emit (Fputs RPM_FIFO_PATH "rpm:%.2f" rpm ok)) p in
    if ok then p else closeRPMPipe p
  else p.

(** Keyboard branch of the loop body: [None] when [fgets] on stdin
    returns NULL and the loop is left by [break]. *)
Definition phase_stdin `{Platform} (env : CycleEnv) (p : Proc) : option Proc :=
  if (sel_ready env >? 0) && sel_stdin env then
    match stdin_line env with
    | None => None
    | Some input => Some (on_world (processCommand (rpm_stdin env) input) p)
    end
  else Some p.

(** Command-pipe branch: end-of-stream forces the safe stop, then the
    mode goes back to manual, then the pipe is closed. *)
Definition phase_pipe `{Platform} (env : CycleEnv) (p : Proc) : Proc :=
  if negb (g_pipe_fd (bridge p) =? -1) && (sel_ready env >? 0) && sel_pipe env then
    match pipe_line env with
    | None =>
        let p := on_world (printf "BLE server disconnected! TURNING MOTOR OFF FOR SAFETY!" []) p in
        let p := on_world motorOff p in
        let p := on_world (with_glob (set_control_mode 0)) p in
        let p := closePipe p in
        on_world (printf "   Waiting for reconnect..." []) p
    | Some input => on_world (processCommand (rpm_pipe env) input) p
    end
  else p.

(** Reconnection of the command pipe, every tenth pass while closed. *)
Definition phase_reconnect (env : CycleEnv) (p : Proc) : Proc :=
  let b := bridge p in
  if g_pipe_fd b =? -1 then
    let t := int32 (pipe_reconnect_timer b + 1) in
    if t >=? 10 then
      let p := mkProc (world p)
                 (mkBridge (g_pipe_fd b) (g_pipe_stream b) (g_rpm_pipe_fd b)
                           (g_rpm_pipe_stream b) 0 (rpm_reconnect_timer b)) in
      openPipe (open_cmd_fd env) (fdopen_cmd_ok env) p
    else
      mkProc (world p)
             (mkBridge (g_pipe_fd b) (g_pipe_stream b) (g_rpm_pipe_fd b)
                       (g_rpm_pipe_stream b) t (rpm_reconnect_timer b))
  else p.

(** The status line printed on a timeout. *)
Definition print_status (rpm : float) (p : Proc) : Proc :=
  let g := glob (world p) in
  let mode_str := if g_control_mode g =? 1 then "AUTO" else "MANUAL" in
  let motor_str := if negb (g_motor_on g =? 0) then "ON" else "OFF" in
  let head := if negb (g_pipe_fd (bridge p) =? -1) then "[BLE:%s]" else "[WAIT:%s]" in
  if g_control_mode g =? 1 then
    on_world (printf (head ++ " RPM: %7.2f/%7.2f | Motor: %s | Speed: %d%% | > ")
                [AStr mode_str; ADbl rpm; ADbl (g_desired_rpm g);
                 AStr motor_str; AInt (g_speed g)]) p
  else
    on_world (printf (head ++ " RPM: %7.2f | Motor: %s | Speed: %d%% | > ")
                [AStr mode_str; ADbl rpm; AStr motor_str; AInt (g_speed g)]) p.

(** Work done when [select] timed out: PID step in automatic mode with
    the motor on, status to the bridge, status line. *)
Definition phase_periodic `{Platform} (env : CycleEnv) (p : Proc) : Proc :=
  if sel_ready env =? 0 then
    let rpm := rpm_periodic env in
    let g := glob (world p) in
    let p :=
      if (g_control_mode g =? 1) && negb (g_motor_on g =? 0) then
        let '(new_speed, g') :=
          pidController rpm (g_desired_rpm g) (pid_tick1 env) (pid_tick2 env) g in
        let p := on_world (with_glob (fun _ => g')) p in
        if negb (new_speed =? g_speed g') then on_world (setSpeed new_speed) p
        else p
      else p in
    let p := sendRPM rpm (fputs_ok env) p in
    print_status rpm p
  else p.

(** Reconnection of the status pipe. *)
Definition phase_rpm_reconnect (env : CycleEnv) (p : Proc) : Proc :=
  let b := bridge p in
  if g_rpm_pipe_fd b =? -1 then
    let t := int32 (rpm_reconnect_timer b + 1) in
    if t >=? 10 then
      let p := mkProc (world p)
                 (mkBridge (g_pipe_fd b) (g_pipe_stream b) (g_rpm_pipe_fd b)
                           (g_rpm_pipe_stream b) (pipe_reconnect_timer b) 0) in
      openRPMPipe (open_rpm_fd env) (fdopen_rpm_ok env) p
    else
      mkProc (world p)
             (mkBridge (g_pipe_fd b) (g_pipe_stream b) (g_rpm_pipe_fd b)
                       (g_rpm_pipe_stream b) (pipe_reconnect_timer b) t)
  else p.

(** How a pass through the loop body ends. *)
Inductive flow : Type :=
  | Next      (* falls through or [continue]: the loop condition is tested again *)
  | Break.    (* [break]: control goes to [cleanup(0)] *)

(** The body of [while (!g_quit)] in [main]. *)
Definition main_cycle `{Platform} (env : CycleEnv) (p : Proc) : Proc * flow :=
  if sel_ready env <? 0 then
    if sel_eintr env then (p, Next)
    else (on_world (emit (Perror "select")) p, Break)
  else
    match phase_stdin env p with
    | None => (p, Break)
    | Some p =>
        let p := phase_pipe env p in
        let p := phase_reconnect env p in
        let p := phase_periodic env p in
        let p := phase_rpm_reconnect env p in
        (p, Next)
    end.

(** [cleanup(sig)], up to the calls that end the process. *)
Definition cleanup (p : Proc) : Proc :=
  let p := on_world (printf "Shutting down..." []) p in
  let p := on_world (with_glob (set_quit 1)) p in
  let p := on_world motorOff p in
  let p := closePipe p in
  closeRPMPipe p.

(** The events a pass appended to the trace of [p0]. *)
Definition events_since (p0 p : Proc) : list event :=
  drop (length (trace (world p0))) (trace (world p)).

(** An attempt to open the command pipe. *)
Definition is_reopen (e : event) : bool :=
  match e with
  | Open path _ => String.eqb path FIFO_PATH
  | _ => false
  end.

(** A sample [Platform] for evaluating the model on concrete command
    lines: its parsers read an unsigned decimal integer (as libc's do on
    such input) and the undefined conversion yields 0, as on ARM. *)
Fixpoint parse_digits (acc : Z) (s : string) : Z :=
  match s with
  | String c r =>
      let d := Z.of_N (N_of_ascii c) - 48 in
      if (0 <=? d) && (d <=? 9) then parse_digits (10 * acc + d) r else acc
  | EmptyString => acc
  end.

Definition sample_platform : Platform :=
  {| atof := fun s => double_of_Z (parse_digits 0 s);
     atoi := fun s => parse_digits 0 s;
     cast_undef := fun _ => 0 |}.

(** The same parsers on a target whose conversion of an unrepresentable
    double yields [INT_MIN], as on x86. *)
Definition sample_platform_x86 : Platform :=
  {| atof := fun s => double_of_Z (parse_digits 0 s);
     atoi := fun s => parse_digits 0 s;
     cast_undef := fun _ => INT_MIN |}.

(** The loop of [main] run against a finite list of answers of the
    outside world, one per pass; leaving the loop runs [cleanup]. *)
Fixpoint main_loop `{Platform} (envs : list CycleEnv) (p : Proc) : Proc :=
  match envs with
  | [] => p
  | env :: rest =>
      if negb (g_quit (glob (world p)) =? 0) then cleanup p
      else
        match main_cycle env p with
        | (p', Next) => main_loop rest p'
        | (p', Break) => cleanup p'
        end
  end.

(** The process when it reaches the loop: [main] has called [motorOff]
    once. *)
Definition startup : Proc := on_world motorOff initial_proc.

(* ===================================================================== *)
(** * 9. Vocabulary of the statements *)
(* ===================================================================== *)

(** [clamp(x, 0, 100)] as the interface documents it. *)
Definition clamp_percent (x : Z) : Z := Z.max 0 (Z.min x 100).

(** The command as [processCommand] sees it after removing the line
    end. *)
Definition clean_line (input : string) : string :=
  cut_at "013"%char (cut_at "010"%char input).

(** A text followed by a newline, as [fgets] returns a line. *)
Definition line (s : string) : string := s ++ String "010"%char EmptyString.

(** A pass in which [select] reports a console line. *)
Definition console_pass (input : string) : CycleEnv :=
  mkCycleEnv 1 false true false (Some input) None
             0%float 0%float 0%float 0 0 true (-1) false (-1) false.

(** A pass in which [select] times out; [rpm] is the published estimate
    and [t1], [t2] the ticks seen by the controller. *)
Definition timeout_pass (rpm : float) (t1 t2 : Z) : CycleEnv :=
  mkCycleEnv 0 false false false None None
             0%float 0%float rpm t1 t2 true (-1) false (-1) false.

(** The test of the counting loop on one timestamp. *)
Definition counted (now t : Z) : bool :=
  (now >=? t) && (u32 (now - t) <=? RPM_CALCULATION_WINDOW_MS * 1000).

(** Speed in percent, as the data model requires it. *)
Definition speed_in_range (g : Globals) : Prop := 0 <= g_speed g <= 100.

(** The hardware writes of [motorOff], in order. *)
Definition motor_off_events : list event :=
  [Printf "-> Motor OFF" []; GpioPWM MOTOR_ENABLE_PIN 0;
   GpioWrite MOTOR_IN1_PIN 0; GpioWrite MOTOR_IN2_PIN 0; GpioWrite LED_PIN 0].

(** [w'] continues the trace of [w] without an attempt to open the
    command pipe. *)
Definition quiet (w w' : World) : Prop :=
  exists evs, trace w' = (trace w ++ evs)%list /\ existsb is_reopen evs = false.

(** [w'] continues the trace of [w]. *)
Definition extends (w w' : World) : Prop :=
  exists evs, trace w' = (trace w ++ evs)%list.

(** The safe state: motor disabled, PWM at 0, both direction lines and
    the LED low, manual mode. *)
Definition stopped_manual (p : Proc) : Prop :=
  g_motor_on (glob (world p)) = 0
  /\ pwm_enable (pins (world p)) = 0
  /\ in1 (pins (world p)) = 0
  /\ in2 (pins (world p)) = 0
  /\ led (pins (world p)) = 0
  /\ g_control_mode (glob (world p)) = 0.

(** A pass in which the command pipe is readable and [fgets] on it
    returns NULL; the reconnect attempts of the pass succeed. *)
Definition pipe_eof_pass : CycleEnv :=
  mkCycleEnv 1 false false true None None
             0%float 0%float 0%float 0 0 true 7 true (-1) false.

(** A running process: pipe connected on descriptor 5, automatic mode,
    motor on at 80 percent, nine passes since the last reconnect try. *)
Definition running_connected : Proc :=
  mkProc (mkWorld (mkGlobals 80 1 1 0 1 3000%float 0%float 0%float 0)
                  (mkPins 204 1 0 1) [])
         (mkBridge 5 true (-1) false 9 0).

(** A controller state reached by the console commands [s 80], [auto 0],
    [on]: automatic mode, motor on at 80 percent, target 0. *)
Definition auto_at_80 : Globals :=
  mkGlobals 80 1 1 0 1 0%float 0%float 0%float 0.

(** The process after those three console lines, run from start-up. *)
Definition reached_auto_at_80 : Proc :=
  main_loop (H := sample_platform)
    [console_pass (line "s 80"); console_pass (line "auto 0");
     console_pass (line "on")] startup.

(** The process [running_connected] after the pipe branch of a pass in
    which the pipe closes, and at the end of that pass. *)
Definition after_eof_branch : Proc :=
  phase_pipe (H := sample_platform) pipe_eof_pass running_connected.

Definition after_eof_pass : Proc :=
  phase_rpm_reconnect pipe_eof_pass
    (phase_periodic (H := sample_platform) pipe_eof_pass
       (phase_reconnect pipe_eof_pass after_eof_branch)).

(** The ring after a single edge stamped just before the tick wraps. *)
Definition ring_with_wrapped_edge : RpmState :=
  recordEdge 4294967290 (rpm_start (replicate 1000 0) 0).

(** ** Vocabulary of the further properties *)

(** The drive outputs agree with the motor flags: the stored speed is a
    percentage, and either the motor is disabled with PWM 0 and the LED
    low, or it is enabled at a speed of at least 1 with the duty
    [speed * 255 / 100] and the LED high. *)
Definition drive_ok (w : World) : Prop :=
  0 <= g_speed (glob w) <= 100
  /\ ((g_motor_on (glob w) = 0 /\ pwm_enable (pins w) = 0 /\ led (pins w) = 0)
      \/ (g_motor_on (glob w) = 1 /\ 1 <= g_speed (glob w)
          /\ pwm_enable (pins w) = g_speed (glob w) * 255 / 100
          /\ led (pins w) = 1)).

(** The direction lines are in one of the three states of the H-bridge
    table that the program uses: brake, forward, reverse. *)
Definition lines_ok (w : World) : Prop :=
  (in1 (pins w) = 0 /\ in2 (pins w) = 0)
  \/ (in1 (pins w) = 1 /\ in2 (pins w) = 0)
  \/ (in1 (pins w) = 0 /\ in2 (pins w) = 1).

Definition hw_ok (w : World) : Prop := drive_ok w /\ lines_ok w.

(** The effect of one event on the output lines, as [gpioPWM] and
    [gpioWrite] apply it. *)
Definition apply_event (e : event) (p : Pins) : Pins :=
  match e with
  | GpioPWM pin duty =>
      if pin =? MOTOR_ENABLE_PIN then mkPins duty (in1 p) (in2 p) (led p) else p
  | GpioWrite pin level =>
      if pin =? MOTOR_IN1_PIN then mkPins (pwm_enable p) level (in2 p) (led p)
      else if pin =? MOTOR_IN2_PIN then mkPins (pwm_enable p) (in1 p) level (led p)
      else if pin =? LED_PIN then mkPins (pwm_enable p) (in1 p) (in2 p) level
      else p
  | _ => p
  end.

(** The successive states of the output lines while a list of events
    happens, starting from [p]. *)
Fixpoint pin_states (evs : list event) (p : Pins) : list Pins :=
  match evs with
  | [] => []
  | e :: rest => apply_event e p :: pin_states rest (apply_event e p)
  end.

(** Both direction lines high: the state the H-bridge table of the source
    marks as not to be used. *)
Definition both_high (p : Pins) : bool := (in1 p =? 1) && (in2 p =? 1).

(** The events a function appended to the trace of [w]. *)
Definition new_events (w w' : World) : list event :=
  drop (length (trace w)) (trace w').

(** The ring after the edges [ts] were recorded in order. *)
Definition record_all (ts : list Z) (r : RpmState) : RpmState :=
  fold_left (fun r t => recordEdge t r) ts r.

(** [c] occurs in [s]. *)
Fixpoint has_char (c : ascii) (s : string) : bool :=
  match s with
  | EmptyString => false
  | String a r => Ascii.eqb a c || has_char c r
  end.

(** The command is one the interpreter has a branch for. *)
Definition in_vocabulary (c : string) : bool :=
  strncmp_eq c "auto " 5
  || String.eqb c "manual" || String.eqb c "on" || String.eqb c "off"
  || String.eqb c "f" || String.eqb c "r" || String.eqb c "rpm"
  || String.eqb c "q" || String.eqb c "+" || String.eqb c "-"
  || is_speed_command c.

(** The two pipes are closed. *)
Definition pipes_closed (p : Proc) : Prop :=
  g_pipe_fd (bridge p) = -1 /\ g_pipe_stream (bridge p) = false
  /\ g_rpm_pipe_fd (bridge p) = -1 /\ g_rpm_pipe_stream (bridge p) = false.

(** Motor disabled, PWM 0, direction lines and LED low. *)
Definition motor_stopped (w : World) : Prop :=
  g_motor_on (glob w) = 0 /\ pwm_enable (pins w) = 0
  /\ in1 (pins w) = 0 /\ in2 (pins w) = 0 /\ led (pins w) = 0.

(** The target that [auto N] stores for the parsed value [d]. *)
Definition clamp_target (d : float) : float :=
  let d := if (d <? 0)%float then 0%float else d in
  if (10000 <? d)%float then 10000%float else d.


(** The ring [r] holds the edges [ts] recorded so far: the array has its
    1000 cells, the index and the saturating count follow the number of
    edges, and each of the last 1000 edges sits in the cell of its
    position modulo 1000. *)
Definition ring_holds (ts : list Z) (r : RpmState) : Prop :=
  length (pulse_times r) = 1000%nat
  /\ pulse_index r = Z.of_nat (length ts) mod 1000
  /\ pulse_count r = Z.min (Z.of_nat (length ts)) 1000
  /\ forall k : nat,
       Z.of_nat (length ts) - 1000 <= Z.of_nat k < Z.of_nat (length ts) ->
       pulse_times r !! Z.to_nat (Z.of_nat k mod 1000) = ts !! k.

(** The sampling thread run over a list of loop iterations, each given
    by the sensor level and the two ticks it reads. *)
Definition rpm_run (steps : list (Z * Z * Z)) (r : RpmState) : RpmState :=
  fold_left (fun r s => rpmThread_step (fst (fst s)) (snd (fst s)) (snd s) r)
            steps r.


(** Number of attempts to open the command pipe among the events. *)
Definition count_reopens (evs : list event) : Z :=
  Z.of_nat (length (List.filter is_reopen evs)).

(** The pass reaches the end of the loop body: [select] did not fail and
    the console did not hit end of input. *)
Definition pass_completes (env : CycleEnv) : bool :=
  (0 <=? sel_ready env)
  && negb ((sel_ready env >? 0) && sel_stdin env
           && match stdin_line env with None => true | Some _ => false end).

(** The state after a sequence of passes of the loop body. *)
Definition run_passes `{Platform} (envs : list CycleEnv) (p : Proc) : Proc :=
  fold_left (fun q env => fst (main_cycle env q)) envs p.

(* ===================================================================== *)
(** * 9b. The BLE server, [srcs/ble_server.c] *)
(* ===================================================================== *)

(** The server is the writer of the command pipe and the reader of the
    status pipe.  Its D-Bus plumbing is outside the embedding: a method
    call arrives as its object path, method name and byte array, a
    PropertiesChanged signal as its interface name and the value of
    [Connected] when present, and replies and notifications are events of
    the trace.  The beep thread is run as one body; interleavings with
    the main context are not modelled. *)
Module Ble.

Definition COMMAND_CHAR_PATH : string := "/org/bluez/example/service0/char0".
Definition STATUS_CHAR_PATH : string := "/org/bluez/example/service0/char1".
Definition SERVICE_PATH : string := "/org/bluez/example/service0".
Definition DEVICE_IFACE : string := "org.bluez.Device1".
Definition MOTOR_SERVICE_UUID : string := "6e400001-b5a3-f393-e0a9-e50e24dcca9e".
Definition COMMAND_CHAR_UUID : string := "6e400002-b5a3-f393-e0a9-e50e24dcca9e".
Definition STATUS_CHAR_UUID : string := "6e400003-b5a3-f393-e0a9-e50e24dcca9e".

(** Values handed to GLib as GVariants. *)
Inductive gvariant : Type :=
  | VString (s : string)
  | VBoolean (b : bool)
  | VObjectPath (s : string)
  | VObjectPaths (l : list string)
  | VStrv (l : list string)
  | VBytes (s : string).

Inductive event : Type :=
  | Printf (fmt : string) (args : list parg)
  | Fprintf (command : string) (ok : bool)   (* fprintf(pipe_out, "%s", command) *)
  | Fflush
  | Fclose (path : string)
  | FcloseNull                               (* fclose(NULL): undefined in C *)
  | Usleep (us : Z)
  | SpawnBeeps (count : Z)                   (* pthread_create(beep_thread, count) *)
  | Notify (payload : string)                (* PropertiesChanged carrying Value *)
  | ReturnValue (v : option gvariant)
  | ReturnError (msg : string)
  | Open (path : string) (fd : Z)
  | Mkfifo (path : string) (ok : bool)
  | Close (fd : Z).

(** Globals of the server, the static [pipe_created] of
    [read_rpm_from_pipe], the trace, and the results that the coming
    [fprintf] calls on the command pipe will have ([true] once the list is
    used up). *)
Record State : Type := mkState {
  pipe_out : bool;                  (* FILE* not NULL *)
  rpm_pipe_in : bool;
  status_char_notifying : bool;
  last_connected_state : bool;
  pipe_created : bool;
  trace : list event;
  fprintf_results : list bool
}.

Definition emit (e : event) (b : State) : State :=
  mkState (pipe_out b) (rpm_pipe_in b) (status_char_notifying b)
          (last_connected_state b) (pipe_created b) (trace b ++ [e])
          (fprintf_results b).

Definition printf (fmt : string) (args : list parg) (b : State) : State :=
  emit (Printf fmt args) b.

Definition write_to_pipe (command : string) (b : State) : State :=
  if negb (pipe_out b) then printf "[BLE] ERROR: Pipe not open" [] b
  else
    let ok := match fprintf_results b with [] => true | r :: _ => r end in
    let b := mkState (pipe_out b) (rpm_pipe_in b) (status_char_notifying b)
                     (last_connected_state b) (pipe_created b)
                     (trace b ++ [Fprintf command ok])
                     (tl (fprintf_results b)) in
    if negb ok then
      let b := printf "[BLE] ERROR: Failed to write to pipe: %s" [] b in
      let b := emit (Fclose FIFO_PATH) b in
      mkState false (rpm_pipe_in b) (status_char_notifying b)
              (last_connected_state b) (pipe_created b) (trace b)
              (fprintf_results b)
    else
      let b := emit Fflush b in
      printf "[BLE] Sent to C program: %s" [AStr command] b.

(** The [for] loop of [beep_thread], [n] iterations from index [i]. *)
Fixpoint beep_loop (n : nat) (i count : Z) (b : State) : State :=
  match n with
  | O => b
  | S n =>
      let b := write_to_pipe (line "on") b in
      let b := emit (Usleep 150000) b in
      let b := write_to_pipe (line "off") b in
      let b := if i <? int32 (count - 1) then emit (Usleep 100000) b else b in
      beep_loop n (int32 (i + 1)) count b
  end.

Definition beep_thread (count : Z) (b : State) : State :=
  if negb (pipe_out b) then printf "Cannot beep: pipe not open" [] b
  else
    let b := write_to_pipe (line "s 50") b in
    let b := emit (Usleep 50000) b in
    let b := beep_loop (Z.to_nat count) 0 count b in
    printf "Beeped %d times" [AInt count] b.

Definition send_beeps (count : Z) (b : State) : State :=
  emit (SpawnBeeps count) b.

(** The bytes of a write taken as a C string: up to the first NUL. *)
Definition c_string (bytes : string) : string := cut_at "000"%char bytes.

Definition set_notifying (v : bool) (b : State) : State :=
  mkState (pipe_out b) (rpm_pipe_in b) v (last_connected_state b)
          (pipe_created b) (trace b) (fprintf_results b).

Definition handle_method_call (object_path method_name value : string)
    (b : State) : State :=
  if String.eqb object_path COMMAND_CHAR_PATH && String.eqb method_name "WriteValue" then
    let command := c_string value in
    let b := printf "[BLE] Received: %s" [AStr command] b in
    let b := write_to_pipe command b in
    emit (ReturnValue None) b
  else if String.eqb object_path STATUS_CHAR_PATH && String.eqb method_name "StartNotify" then
    let b := set_notifying true b in
    let b := printf "[BLE] Notifications started for %s" [AStr STATUS_CHAR_UUID] b in
    emit (ReturnValue None) b
  else if String.eqb object_path STATUS_CHAR_PATH && String.eqb method_name "StopNotify" then
    let b := set_notifying false b in
    let b := printf "[BLE] Notifications stopped" [] b in
    emit (ReturnValue None) b
  else if String.eqb method_name "ReadValue" then
    emit (ReturnValue (Some (VBytes ""))) b
  else emit (ReturnError "Method not implemented") b.

Definition handle_get_property (object_path property_name : string)
    (b : State) : option gvariant :=
  if String.eqb object_path SERVICE_PATH then
    if String.eqb property_name "UUID" then Some (VString MOTOR_SERVICE_UUID)
    else if String.eqb property_name "Primary" then Some (VBoolean true)
    else if String.eqb property_name "Characteristics"
    then Some (VObjectPaths [COMMAND_CHAR_PATH; STATUS_CHAR_PATH])
    else None
  else if String.eqb object_path COMMAND_CHAR_PATH then
    if String.eqb property_name "UUID" then Some (VString COMMAND_CHAR_UUID)
    else if String.eqb property_name "Service" then Some (VObjectPath SERVICE_PATH)
    else if String.eqb property_name "Flags" then Some (VStrv ["write-without-response"])
    else if String.eqb property_name "Notifying" then Some (VBoolean false)
    else if String.eqb property_name "Value" then Some (VBytes "")
    else None
  else if String.eqb object_path STATUS_CHAR_PATH then
    if String.eqb property_name "UUID" then Some (VString STATUS_CHAR_UUID)
    else if String.eqb property_name "Service" then Some (VObjectPath SERVICE_PATH)
    else if String.eqb property_name "Flags" then Some (VStrv ["notify"])
    else if String.eqb property_name "Notifying"
    then Some (VBoolean (status_char_notifying b))
    else if String.eqb property_name "Value" then Some (VBytes "")
    else None
  else None.

Definition on_properties_changed (iface : string) (connected : option bool)
    (b : State) : State :=
  if negb (String.eqb iface DEVICE_IFACE) then b
  else
    match connected with
    | None => b
    | Some c =>
        if negb (Bool.eqb c (last_connected_state b)) then
          let b := mkState (pipe_out b) (rpm_pipe_in b) (status_char_notifying b)
                           c (pipe_created b) (trace b) (fprintf_results b) in
          if c then
            let b := printf "Device connected! Beeping 4 times..." [] b in
            send_beeps 4 b
          else
            let b := printf "Device disconnected! TURNING MOTOR OFF FOR SAFETY!" [] b in
            let b := write_to_pipe (line "off") b in
            let b := printf "   Sent OFF command to motor" [] b in
            send_beeps 4 b
        else b
    end.

(** What the outside world answers to one run of the RPM timer. *)
Record PollEnv : Type := mkPollEnv {
  open_fd : Z;                     (* open(RPM_FIFO_PATH, O_RDONLY | O_NONBLOCK) *)
  errno_enxio : bool;
  errno_enoent : bool;
  mkfifo_ok : bool;
  fdopen_ok : bool;
  select_ready : Z;
  fgets_line : option string;
  ferror_set : bool
}.

(** The bytes sent to the phone for one line of the status pipe, when the
    line is forwarded at all. *)
Definition rpm_payload (rpm_buffer : string) : option string :=
  let rpm_buffer := cut_at "010"%char (c_string rpm_buffer) in
  if strncmp_eq rpm_buffer "rpm:" 4
  then Some (string_from 4 rpm_buffer ++ String "010"%char EmptyString)
  else None.

Definition set_rpm_pipe_in (v : bool) (b : State) : State :=
  mkState (pipe_out b) v (status_char_notifying b) (last_connected_state b)
          (pipe_created b) (trace b) (fprintf_results b).

(** The data part of [read_rpm_from_pipe], once the pipe is open. *)
Definition poll_rpm_data (env : PollEnv) (b : State) : State :=
  if select_ready env >? 0 then
    match fgets_line env with
    | Some rpm_buffer =>
        match rpm_payload rpm_buffer with
        | Some payload => emit (Notify payload) b
        | None => b
        end
    | None =>
        if ferror_set env
        then set_rpm_pipe_in false (emit (Fclose RPM_FIFO_PATH) b)
        else b
    end
  else b.

Definition read_rpm_from_pipe (env : PollEnv) (b : State) : State :=
  if negb (status_char_notifying b) then b
  else if negb (rpm_pipe_in b) then
    let b := emit (Open RPM_FIFO_PATH (open_fd env)) b in
    if open_fd env <? 0 then
      if negb (errno_enxio env) && negb (pipe_created b) && errno_enoent env then
        let b := printf "Creating RPM pipe: %s" [AStr RPM_FIFO_PATH] b in
        let b := emit (Mkfifo RPM_FIFO_PATH (mkfifo_ok env)) b in
        if mkfifo_ok env
        then mkState (pipe_out b) (rpm_pipe_in b) (status_char_notifying b)
                     (last_connected_state b) true (trace b) (fprintf_results b)
        else b
      else b
    else if fdopen_ok env then
      let b := set_rpm_pipe_in true b in
      let b := printf "[BLE] RPM pipe opened!" [] b in
      poll_rpm_data env b
    else emit (Close (open_fd env)) b
  else poll_rpm_data env b.

(** [cleanup_and_exit], up to the calls that end the process. *)
Definition cleanup_and_exit (b : State) : State :=
  let b := printf "[BLE] Stopping server..." [] b in
  let b := printf "[BLE] SAFETY: Turning motor off..." [] b in
  let b :=
    if pipe_out b then
      let b := write_to_pipe (line "off") b in
      let b := printf "   Motor OFF command sent" [] b in
      let b := if pipe_out b then emit (Fclose FIFO_PATH) b else emit FcloseNull b in
      mkState false (rpm_pipe_in b) (status_char_notifying b)
              (last_connected_state b) (pipe_created b) (trace b)
              (fprintf_results b)
    else b in
  let b := if rpm_pipe_in b
           then set_rpm_pipe_in false (emit (Fclose RPM_FIFO_PATH) b) else b in
  printf "[BLE] Server shut down" [] b.

(** What reaches the server from outside, one item per callback or
    thread body. *)
Inductive input : Type :=
  | MethodCall (object_path method_name value : string)
  | PropertiesChanged (iface : string) (connected : option bool)
  | RpmTimer (env : PollEnv)
  | BeepThread (count : Z).

Definition step (i : input) (b : State) : State :=
  match i with
  | MethodCall object_path method_name value =>
      handle_method_call object_path method_name value b
  | PropertiesChanged iface connected => on_properties_changed iface connected b
  | RpmTimer env => read_rpm_from_pipe env b
  | BeepThread count => beep_thread count b
  end.

Definition run (inputs : list input) (b : State) : State :=
  fold_left (fun b i => step i b) inputs b.

(** The commands that the events put on the command pipe, in order. *)
Fixpoint pipe_lines (evs : list event) : list string :=
  match evs with
  | [] => []
  | Fprintf command true :: rest => command :: pipe_lines rest
  | _ :: rest => pipe_lines rest
  end.

(** The events appended to the trace of [b]. *)
Definition new_events (b b' : State) : list event :=
  drop (length (trace b)) (trace b').

(** The server after start-up with the command pipe open. *)
Definition started : State := mkState true false false false false [] [].

End Ble.

(** The controller fed the lines of the command pipe, one [fgets] line
    after the other. *)
Definition feed `{Platform} (rpm : float) (lines : list string) (w : World) : World :=
  fold_left (fun w input => processCommand rpm input w) lines w.



(** ** Concrete states and inputs for the further properties *)

(** Motor running forward at 40 percent in manual mode. *)
Definition manual_at_40 : World :=
  mkWorld (mkGlobals 40 1 1 0 0 0%float 0%float 0%float 0) (mkPins 102 1 0 1) [].

(** Start-up state after the command [r]: motor off, reverse line high. *)
Definition idle_reverse : World := setDirection 0 (world startup).

(** A pass in which the console delivers the line [q]. *)
Definition quit_pass : CycleEnv := console_pass (line "q").

(** A pass in which [fgets] on the console returns NULL. *)
Definition console_eof_pass : CycleEnv :=
  mkCycleEnv 1 false true false None None
             0%float 0%float 0%float 0 0 true (-1) false (-1) false.

(** Controller state 200 ms after a speed change stamped at tick 1000. *)
Definition stabilizing : Globals :=
  mkGlobals 32 1 1 0 1 1500%float 12%float 3%float 1000.

(** A ring holding three edges, at ticks 100000, 300000 and 500000. *)
Definition ring_three_edges : RpmState :=
  record_all [100000; 300000; 500000] (rpm_start (replicate 1000 0) 0).

(** A process with the status pipe connected, in manual mode. *)
Definition status_connected : Proc :=
  mkProc manual_at_40 (mkBridge (-1) false 6 true 3 0).

(** A server with the pipe open whose next write fails. *)
Definition next_write_fails : Ble.State :=
  Ble.mkState true false true true false [] [false].

(** A server with the status pipe open and notifications on, and a timer
    run that finds one status line. *)
Definition notifying_server : Ble.State :=
  Ble.mkState true true true true false [] [].

Definition poll_one_line : Ble.PollEnv :=
  Ble.mkPollEnv 7 false false false true 1
    (Some ("rpm:" ++ "1234.56" ++ String "010"%char EmptyString)) false.

(* ===================================================================== *)
(** * 10. Properties of the motor actuator *)
(* ===================================================================== *)

Lemma setSpeed_stores_clamped (x : Z) (w : World) :
  g_speed (glob (setSpeed x w)) = clamp_percent x.
Proof.
  unfold setSpeed, clamp_percent.
  destruct (x <? 0) eqn:Hlo.
  - apply Z.ltb_lt in Hlo. cbn. lia.
  - apply Z.ltb_ge in Hlo.
    destruct (x >? 100) eqn:Hhi.
    + apply Z.gtb_lt in Hhi. cbn. lia.
    + rewrite Z.gtb_ltb in Hhi. apply Z.ltb_ge in Hhi.
      destruct (x =? 0); cbn; lia.
Qed.

(** C2. Whatever the speed, direction and on/off flag were, after
    [motorOff] the PWM duty is 0, both direction lines and the LED are
    low, and the enabled flag is false. *)
Theorem motorOff_safe_stop (w : World) :
  pwm_enable (pins (motorOff w)) = 0
  /\ in1 (pins (motorOff w)) = 0
  /\ in2 (pins (motorOff w)) = 0
  /\ led (pins (motorOff w)) = 0
  /\ g_motor_on (glob (motorOff w)) = 0.
Proof. repeat split. Qed.

(** [motorOff] leaves the stored speed and the stored direction alone. *)
Lemma motorOff_keeps_speed_direction (w : World) :
  g_speed (glob (motorOff w)) = g_speed (glob w)
  /\ g_direction (glob (motorOff w)) = g_direction (glob w).
Proof. split; reflexivity. Qed.

(** C9. A second [motorOff] right after a first one changes neither the
    motor state (stored speed, direction, enabled flag, and every other
    global) nor the output lines. *)
Theorem motorOff_idempotent (w : World) :
  glob (motorOff (motorOff w)) = glob (motorOff w)
  /\ pins (motorOff (motorOff w)) = pins (motorOff w).
Proof. split; reflexivity. Qed.

(** C10. [setSpeed x] writes the enabled flag: when [x] clamps to 0 the
    flag becomes false, the PWM is stopped and the LED goes low; when [x]
    clamps to a positive value the flag becomes true and the LED goes
    high with the duty [clamp * 255 / 100] -- whatever the flag was
    before, so also when the motor was off and [motorOn] was never
    called. *)
Theorem setSpeed_sets_enabled (x : Z) (w : World) :
  let c := clamp_percent x in
  let w' := setSpeed x w in
  if c =? 0
  then g_motor_on (glob w') = 0 /\ pwm_enable (pins w') = 0 /\ led (pins w') = 0
  else g_motor_on (glob w') = 1 /\ led (pins w') = 1
       /\ pwm_enable (pins w') = c * 255 / 100.
Proof.
  cbv zeta. unfold clamp_percent, setSpeed.
  destruct (x <? 0) eqn:Hlo.
  - apply Z.ltb_lt in Hlo.
    replace (Z.max 0 (Z.min x 100)) with 0 by lia. cbn. auto.
  - apply Z.ltb_ge in Hlo.
    destruct (x >? 100) eqn:Hhi.
    + apply Z.gtb_lt in Hhi.
      replace (Z.max 0 (Z.min x 100)) with 100 by lia. cbn. auto.
    + rewrite Z.gtb_ltb in Hhi. apply Z.ltb_ge in Hhi.
      replace (Z.max 0 (Z.min x 100)) with x by lia.
      destruct (x =? 0) eqn:Hz; cbn; repeat split.
      apply Z.eqb_neq in Hz.
      unfold int32. rewrite Z.quot_div_nonneg.
      * f_equal. rewrite Z.mod_small; lia.
      * rewrite Z.mod_small; lia.
      * lia.
Qed.

(** The off-to-on case of C10 spelled out on the start-up state, where
    [motorOn] has never run. *)
Example setSpeed_turns_on_from_startup :
  let w := setSpeed 40 (mkWorld initial_globals (mkPins 0 0 0 0) []) in
  g_motor_on (glob w) = 1 /\ led (pins w) = 1 /\ pwm_enable (pins w) = 102.
Proof. repeat split. Qed.

(* ===================================================================== *)
(** * 11. Properties of the command interpreter *)
(* ===================================================================== *)

Section Commands.
Context `{Platform}.

(** C7. In automatic mode the commands [+], [-] and [s N] are rejected:
    the globals and the output lines are exactly as before, and the only
    effect is the echo of the command followed by the two lines of the
    error message. *)
Theorem manual_speed_commands_rejected_in_auto
    (rpm : float) (input : string) (w : World) :
  g_control_mode (glob w) = 1 ->
  (clean_line input = "+" \/ clean_line input = "-"
   \/ exists rest, clean_line input = "s " ++ rest) ->
  glob (processCommand rpm input w) = glob w
  /\ pins (processCommand rpm input w) = pins w
  /\ trace (processCommand rpm input w)
     = (trace w ++
        [Printf "-> Command: [%s]" [AStr (clean_line input)];
         Printf "-> ERROR: In AUTOMATIC mode. Manual speed control disabled." [];
         Printf "   Use 'auto <rpm>' to change target, or 'manual' to switch modes." []])%list.
Proof.
  intros Hmode Hcmd. unfold processCommand.
  change (cut_at "013"%char (cut_at "010"%char input)) with (clean_line input).
  destruct Hcmd as [-> | [-> | [rest ->]]]; cbn; rewrite Hmode; cbn;
    rewrite <- ?app_assoc; auto.
Qed.

(** What [auto N] does to the controller state, for every argument text
    free of line ends: the integral and the last error are cleared, the
    mode is automatic, and the stabilization timestamp keeps the value it
    had. *)
Lemma auto_command_pid_state (rpm : float) (arg : string) (w : World) :
  clean_line ("auto " ++ arg) = "auto " ++ arg ->
  let w' := processCommand rpm ("auto " ++ arg) w in
  g_control_mode (glob w') = 1
  /\ g_pid_integral (glob w') = 0%float
  /\ g_pid_last_error (glob w') = 0%float
  /\ g_last_speed_change_time (glob w') = g_last_speed_change_time (glob w).
Proof.
  intros Hclean. cbv zeta. unfold processCommand.
  change (cut_at "013"%char (cut_at "010"%char ("auto " ++ arg)))
    with (clean_line ("auto " ++ arg)).
  rewrite Hclean.
  change (String.length ("auto " ++ arg) =? 0)%nat with false.
  change (strncmp_eq ("auto " ++ arg) "auto " 5) with true.
  cbv iota. cbv zeta.
  match goal with |- context [(0 <? ?d)%float] => destruct (0 <? d)%float end.
  - cbn [glob with_glob printf emit g_motor_on set_pid_last_error
         set_pid_integral set_control_mode set_desired_rpm].
    destruct (g_motor_on (glob w) =? 0).
    + cbn [setDirection glob with_glob g_direction set_motor_on].
      match goal with |- context [setSpeed ?x ?y] =>
        generalize x; intros sp end.
      unfold setSpeed, setDirection.
      repeat match goal with |- context [if ?b then _ else _] => destruct b end;
        cbn; auto.
    + cbn; auto.
  - cbn; auto.
Qed.
End Commands.

(* ===================================================================== *)
(** * 12. Properties of the PID controller *)
(* ===================================================================== *)

(** ** Binary64 facts needed for the rate limiter *)

Lemma digits2_pos_bound (m : positive) :
  Z.pos m < 2 ^ Z.pos (digits2_pos m).
Proof.
  induction m as [p IH | p IH |]; cbn [digits2_pos].
  - rewrite Pos2Z.inj_succ, Z.pow_succ_r by lia. lia.
  - rewrite Pos2Z.inj_succ, Z.pow_succ_r by lia. lia.
  - reflexivity.
Qed.

Lemma valid_mantissa_bound (s : bool) (m : positive) (e : Z) :
  valid_binary (S754_finite s m e) = true -> Z.pos m < 2 ^ 53.
Proof.
  cbn [SpecFloat.valid_binary]. unfold bounded, canonical_mantissa, fexp.
  intros Hv. apply andb_prop in Hv as [Hc _]. apply Z.eqb_eq in Hc.
  change prec with 53 in Hc.
  pose proof (digits2_pos_bound m) as Hm.
  assert (Hd : Z.pos (digits2_pos m) <= 53) by lia.
  apply Z.lt_le_trans with (1 := Hm).
  apply Z.pow_le_mono_r; lia.
Qed.

Lemma quot_mantissa_le_2 (m : positive) (e : Z) :
  e <= -51 -> Z.pos m < 2 ^ 53 -> (e = -51 -> Z.pos m <= 2 ^ 52) ->
  0 <= Z.quot (Z.pos m) (2 ^ (- e)) <= 2.
Proof.
  intros He Hm Htop.
  assert (Hp : 2 ^ 51 <= 2 ^ (- e)) by (apply Z.pow_le_mono_r; lia).
  rewrite Z.quot_div_nonneg by lia.
  split; [apply Z.div_pos; lia|].
  apply Z.lt_succ_r. apply Z.div_lt_upper_bound; [lia|].
  destruct (Z.eq_dec e (-51)) as [-> | Hne].
  - specialize (Htop eq_refl). change (2 ^ (- -51)) with (2 ^ 51). lia.
  - assert (Hq : 2 ^ 52 <= 2 ^ (- e)) by (apply Z.pow_le_mono_r; lia). lia.
Qed.

(** A valid binary64 number that is neither above 2 nor below -2 truncates
    to an integer between -2 and 2. *)
Lemma trunc_sf_between (x : spec_float) :
  valid_binary x = true -> x <> S754_nan ->
  SFltb (Prim2SF 2) x = false -> SFltb x (Prim2SF (-2)) = false ->
  exists z, trunc_sf x = Some z /\ -2 <= z <= 2.
Proof.
  intros Hv Hn Hhi Hlo.
  change (Prim2SF 2) with (S754_finite false 4503599627370496 (-51)) in Hhi.
  change (Prim2SF (-2)) with (S754_finite true 4503599627370496 (-51)) in Hlo.
  destruct x as [s | s | | s m e].
  - exists 0. split; [reflexivity | lia].
  - destruct s; cbn in Hhi, Hlo; discriminate.
  - congruence.
  - pose proof (valid_mantissa_bound s m e Hv) as Hm.
    unfold SFltb, SFcompare in Hhi, Hlo.
    assert (He : e <= -51 /\ (e = -51 -> Z.pos m <= 2 ^ 52)).
    { clear Hv Hn Hm.
      change (2 ^ 52) with (Z.pos 4503599627370496).
      destruct s.
      - destruct (Z.compare_spec e (-51)) as [-> | Hlt | Hgt];
          try discriminate; [split; [lia|] | split; lia].
        intros _. change (Pos.compare_cont Eq) with Pos.compare in Hlo.
        destruct (Pos.compare_spec m 4503599627370496) as [-> | Hl | Hg];
          try discriminate.
        apply Pos2Z.pos_le_pos, Pos.lt_le_incl, Hl.
      - destruct (Z.compare_spec (-51) e) as [Heq | Hlt | Hgt];
          try discriminate; [symmetry in Heq; subst e; split; [lia|] | split; lia].
        intros _. change (Pos.compare_cont Eq) with Pos.compare in Hhi.
        destruct (Pos.compare_spec 4503599627370496 m) as [Heq | Hl | Hg];
          try discriminate;
          [rewrite <- Heq; apply Z.le_refl
          | apply Pos2Z.pos_le_pos, Pos.lt_le_incl, Hg]. }
    destruct He as [He Htop].
    pose proof (quot_mantissa_le_2 m e He Hm Htop) as Hq.
    cbn [trunc_sf].
    destruct (0 <=? e) eqn:Hpos; [apply Z.leb_le in Hpos; lia|].
    destruct s; eexists; (split; [reflexivity | lia]).
Qed.

Lemma is_nan_false_Prim2SF (a : float) :
  PrimFloat.is_nan a = false -> Prim2SF a <> S754_nan.
Proof.
  unfold PrimFloat.is_nan. rewrite FloatAxioms.eqb_spec. intros Hn Heq.
  rewrite Heq in Hn. discriminate.
Qed.

Section Pid.
Context `{Platform}.

(** The conversion is the truncation whenever that fits an [int]. *)
Lemma int_of_double_exact (x : float) (z : Z) :
  trunc_sf (Prim2SF x) = Some z -> INT_MIN <= z <= INT_MAX ->
  int_of_double x = z.
Proof.
  intros Hz [Hlo Hhi]. unfold int_of_double. rewrite Hz.
  apply Z.leb_le in Hlo, Hhi. rewrite Hlo, Hhi. reflexivity.
Qed.

(** After rate limiting, the integer part of a non-NaN adjustment is
    between [-MAX_SPEED_CHANGE] and [MAX_SPEED_CHANGE]. *)
Lemma rate_limit_cast_bound (a : float) :
  PrimFloat.is_nan a = false ->
  - MAX_SPEED_CHANGE <= int_of_double (rate_limit a) <= MAX_SPEED_CHANGE.
Proof.
  intros Hn. unfold rate_limit, MAX_SPEED_CHANGE.
  change (double_of_Z 2) with 2%float.
  change (- (2))%float with (-2)%float.
  assert (Hint : INT_MIN <= -2 /\ 2 <= INT_MAX) by (unfold INT_MIN, INT_MAX; lia).
  destruct (2 <? a)%float eqn:Hhi.
  - change (2 <? -2)%float with false. cbv iota.
    rewrite (int_of_double_exact 2 2); [lia | reflexivity | lia].
  - destruct (a <? -2)%float eqn:Hlo.
    + rewrite (int_of_double_exact (-2) (-2)); [lia | reflexivity | lia].
    + rewrite FloatAxioms.ltb_spec in Hhi, Hlo.
      destruct (trunc_sf_between (Prim2SF a) (Prim2SF_valid a)
                  (is_nan_false_Prim2SF a Hn) Hhi Hlo) as (z & Hz & Hr).
      rewrite (int_of_double_exact a z); [lia | exact Hz | lia].
Qed.

(** The integer post-processing of the controller (clamp to [0,100] and
    kickstart) keeps its result in [0,100] whatever the sum was. *)
Ltac split_tests :=
  repeat match goal with
    | |- context [Z.gtb ?a ?b] => rewrite (Z.gtb_ltb a b)
    | |- context [Z.ltb ?a ?b] => destruct (Z.ltb_spec a b)
    | |- context [Z.eqb ?a ?b] => destruct (Z.eqb_spec a b)
    | |- context [negb _] => cbn [negb]
    | |- context [andb _ _] => cbn [andb]
    | H : context [Z.ltb ?a ?b] |- _ => destruct (Z.ltb_spec a b)
    end.

(** C4. With a stored speed in [0,100], the value returned by
    [pidController] is in [0,100] for every measured and target RPM,
    every tick and every controller state; and when the target is below
    1.0 the value is exactly 0 and the integral, the last error and the
    stabilization timestamp are all reset (0 is the unset timestamp),
    whatever the measured RPM and the stored speed. *)
Theorem pid_output_range_and_reset
    (current_rpm desired_rpm : float) (tick1 tick2 : Z) (g : Globals) :
  0 <= g_speed g <= 100 ->
  0 <= fst (pidController current_rpm desired_rpm tick1 tick2 g) <= 100
  /\ ((desired_rpm <? 1)%float = true ->
      fst (pidController current_rpm desired_rpm tick1 tick2 g) = 0
      /\ g_pid_integral (snd (pidController current_rpm desired_rpm tick1 tick2 g)) = 0%float
      /\ g_pid_last_error (snd (pidController current_rpm desired_rpm tick1 tick2 g)) = 0%float
      /\ g_last_speed_change_time (snd (pidController current_rpm desired_rpm tick1 tick2 g)) = 0).
Proof.
  intros Hs. unfold pidController.
  destruct (desired_rpm <? 1)%float.
  - cbn. repeat split; lia.
  - split; [|discriminate].
    destruct (_ && _).
    + exact Hs.
    + cbv zeta.
      cbn [g_speed set_pid_last_error set_pid_integral fst].
      set (raw := int32 _). clearbody raw.
      split_tests; cbn [fst]; lia.
Qed.

(** C3, as the code has it. With a target of at least 1.0, a stored speed
    in [0,100] and a PID sum that is a number, the returned speed differs
    from the stored speed by at most [MAX_SPEED_CHANGE], except for the
    kickstart, which returns 20 from a stored speed of 0. *)
Theorem pid_step_rate_limited
    (current_rpm desired_rpm : float) (tick1 tick2 : Z) (g : Globals) :
  (desired_rpm <? 1)%float = false ->
  0 <= g_speed g <= 100 ->
  PrimFloat.is_nan (pid_adjustment current_rpm desired_rpm g) = false ->
  Z.abs (fst (pidController current_rpm desired_rpm tick1 tick2 g) - g_speed g)
    <= MAX_SPEED_CHANGE
  \/ (g_speed g = 0
      /\ fst (pidController current_rpm desired_rpm tick1 tick2 g) = 20).
Proof.
  intros Ht Hs Hn. unfold pidController. rewrite Ht.
  destruct (_ && _).
  - left. cbn [fst]. unfold MAX_SPEED_CHANGE. lia.
  - cbv zeta.
    cbn [g_speed set_pid_last_error set_pid_integral fst].
    pose proof (rate_limit_cast_bound _ Hn) as Hd.
    set (d := int_of_double _) in *. clearbody d.
    unfold MAX_SPEED_CHANGE in *.
    assert (Hraw : int32 (g_speed g + d) = g_speed g + d).
    { unfold int32. rewrite Z.mod_small; lia. }
    rewrite Hraw.
    split_tests; cbn [fst]; lia.
Qed.
End Pid.

(** The state [auto_at_80] is the one the three console commands reach
    from start-up. *)
Example auto_at_80_reachable :
  glob (world reached_auto_at_80) = auto_at_80.
Proof. vm_compute. reflexivity. Qed.

(** Scenario of C4: target 0 while the stored speed is 80. *)
Lemma pid_output_range_and_reset_witness :
  0 <= fst (pidController (H := sample_platform) 1500 0 7 9 auto_at_80) <= 100
  /\ ((0 <? 1)%float = true ->
      fst (pidController (H := sample_platform) 1500 0 7 9 auto_at_80) = 0
      /\ g_pid_integral (snd (pidController (H := sample_platform) 1500 0 7 9 auto_at_80)) = 0%float
      /\ g_pid_last_error (snd (pidController (H := sample_platform) 1500 0 7 9 auto_at_80)) = 0%float
      /\ g_last_speed_change_time (snd (pidController (H := sample_platform) 1500 0 7 9 auto_at_80)) = 0).
Proof.
  apply (pid_output_range_and_reset (H := sample_platform) 1500 0 7 9 auto_at_80).
  cbn. lia.
Defined.

(** C3 as stated fails: in the state that the console commands [s 80],
    [auto 0], [on] reach from start-up, one call of the controller takes
    the speed from 80 to 0. *)
Lemma pid_step_can_exceed_rate_limit :
  ~ (Z.abs (fst (pidController (H := sample_platform) 1500
                   (g_desired_rpm (glob (world reached_auto_at_80))) 7 9
                   (glob (world reached_auto_at_80)))
            - g_speed (glob (world reached_auto_at_80)))
     <= MAX_SPEED_CHANGE).
Proof. vm_compute. intros Hle. apply Hle. reflexivity. Qed.

(** The kickstart case of the rate-limit theorem does occur: from a stored
    speed of 0 a positive step lands on 20. *)
Example pid_kickstart_from_zero :
  fst (pidController (H := sample_platform) 0 3000 7 9
         (mkGlobals 0 1 1 0 1 3000%float 0%float 0%float 0)) = 20.
Proof. vm_compute. reflexivity. Qed.

(** Why the rate-limit theorem asks for a PID sum that is a number: with a NaN
    target the sum is NaN, the conversion to [int] is undefined, and the
    step depends on the target -- none where the conversion yields 0, a
    drop from 80 to 0 where it yields [INT_MIN]. *)
Example pid_nan_sum_depends_on_target :
  fst (pidController (H := sample_platform) 0 nan 7 9
         (mkGlobals 80 1 1 0 1 nan 0%float 0%float 0)) = 80
  /\ fst (pidController (H := sample_platform_x86) 0 nan 7 9
            (mkGlobals 80 1 1 0 1 nan 0%float 0%float 0)) = 0.
Proof. vm_compute. split; reflexivity. Qed.

(** An ordinary step: target 3000, measured 0, stored speed 30. *)
Lemma pid_step_rate_limited_witness :
  Z.abs (fst (pidController (H := sample_platform) 0 3000 7 9
                (mkGlobals 30 1 1 0 1 3000%float 0%float 0%float 0)) - 30)
    <= MAX_SPEED_CHANGE
  \/ (30 = 0
      /\ fst (pidController (H := sample_platform) 0 3000 7 9
                (mkGlobals 30 1 1 0 1 3000%float 0%float 0%float 0)) = 20).
Proof.
  apply (pid_step_rate_limited (H := sample_platform) 0 3000 7 9
           (mkGlobals 30 1 1 0 1 3000%float 0%float 0%float 0)).
  - reflexivity.
  - cbn. lia.
  - reflexivity.
Defined.

(* ===================================================================== *)
(** * 13. Properties of the RPM estimator *)
(* ===================================================================== *)

Lemma fold_scan_step (times : list Z) (index c now : Z) (l : list Z) (acc : Z) :
  fold_left (scan_step times index c now) l acc
  = fold_left (fun acc t => if counted now t then ulong (acc + 1) else acc)
      (map (fun i => default 0 (times !!
               Z.to_nat (ulong (index + 1000 - c + i) mod 1000))) l) acc.
Proof.
  revert acc. induction l as [| i l IH]; intros acc; [reflexivity|].
  cbn [fold_left map]. rewrite <- IH. f_equal.
  unfold scan_step, counted.
  destruct (now >=? _); reflexivity.
Qed.

(** The counting loop is a fold of the test [counted] over the logged
    edges. *)
Lemma count_pulses_as_fold (r : RpmState) (now : Z) :
  count_pulses_in_window r now
  = fold_left (fun acc t => if counted now t then ulong (acc + 1) else acc)
              (logged_edges r) 0.
Proof. apply fold_scan_step. Qed.

Lemma fold_count_no_wrap (now : Z) (l : list Z) (acc : Z) :
  0 <= acc -> acc + Z.of_nat (length l) < 2 ^ 64 ->
  fold_left (fun acc t => if counted now t then ulong (acc + 1) else acc) l acc
  = acc + Z.of_nat (length (List.filter (counted now) l)).
Proof.
  revert acc. induction l as [| t l IH]; intros acc Hlo Hhi.
  - cbn. lia.
  - cbn [fold_left List.filter]. cbn [length] in Hhi.
    destruct (counted now t).
    + unfold ulong. rewrite Z.mod_small by lia.
      rewrite IH by lia. cbn [length]. lia.
    + apply IH; lia.
Qed.

Lemma logged_edges_length (r : RpmState) :
  (length (logged_edges r) <= 1000)%nat.
Proof.
  unfold logged_edges. rewrite length_map, length_seqZ.
  destruct (Z.ltb_spec (pulse_count r) 1000); lia.
Qed.

(** The loop counts exactly the logged edges that pass the test of the
    code: not later than [now] and at most one window older. *)
Lemma count_pulses_spec (r : RpmState) (now : Z) :
  count_pulses_in_window r now
  = Z.of_nat (length (List.filter (counted now) (logged_edges r))).
Proof.
  rewrite count_pulses_as_fold, fold_count_no_wrap; [lia | lia |].
  pose proof (logged_edges_length r).
  change (2 ^ 64) with 18446744073709551616. lia.
Qed.

(** On a log without an edge stamped later than [now], the test of the
    code and the reference age test agree. *)
Lemma counted_matches_reference (now : Z) (l : list Z) :
  Forall (fun t => t <= now) l ->
  List.filter (counted now) l
  = List.filter (fun t => ref_age now t <=? 500000) l.
Proof.
  induction 1 as [| t l Ht _ IH]; [reflexivity|].
  cbn [List.filter]. rewrite IH.
  replace (counted now t) with (ref_age now t <=? 500000); [reflexivity|].
  unfold counted, ref_age, u32.
  destruct (Z.geb_spec now t); [reflexivity | lia].
Qed.

(** Away from the wrap of the tick the published value is the reference
    estimate: with [k] logged edges in the window it is
    [(k / NUM_BLADES) * 120]. *)
Lemma computeRPM_matches_reference (r : RpmState) (now : Z) :
  0 < pulse_count r ->
  Forall (fun t => t <= now) (logged_edges r) ->
  computeRPM r now = ref_estimate NUM_BLADES now (logged_edges r)
  /\ computeRPM r now
     = (double_of_Z (ref_edges_in_window now (logged_edges r))
        / double_of_Z NUM_BLADES * 120)%float.
Proof.
  intros Hc Hall. unfold computeRPM.
  replace (pulse_count r >? 0) with true by (symmetry; apply Z.gtb_lt; lia).
  rewrite count_pulses_spec, (counted_matches_reference _ _ Hall).
  fold (ref_edges_in_window now (logged_edges r)).
  unfold ref_estimate.
  destruct (logged_edges r) as [| t l] eqn:Hlog.
  - exfalso. apply (f_equal (@length Z)) in Hlog.
    unfold logged_edges in Hlog. rewrite length_map, length_seqZ in Hlog.
    cbn in Hlog. destruct (Z.ltb_spec (pulse_count r) 1000); lia.
  - split; reflexivity.
Qed.

(** No edge recorded: the value computed for publication is 0 at every
    query time. *)
Lemma computeRPM_no_edges (r : RpmState) (now : Z) :
  pulse_count r = 0 -> computeRPM r now = 0%float.
Proof. intros Hc. unfold computeRPM. rewrite Hc. reflexivity. Qed.

(** As long as the sensor level never changes, the thread keeps
    publishing 0. *)
Lemma rpmThread_publishes_zero_without_edges
    (level edge_tick update_tick : Z) (r : RpmState) :
  last_state r = level -> pulse_count r = 0 -> g_current_rpm r = 0%float ->
  let r' := rpmThread_step level edge_tick update_tick r in
  last_state r' = level /\ pulse_count r' = 0 /\ g_current_rpm r' = 0%float.
Proof.
  intros Hl Hc Hr. cbv zeta. unfold rpmThread_step.
  rewrite Hl, Z.eqb_refl, andb_false_r.
  unfold rpmUpdate. cbn [last_update pulse_times pulse_count pulse_index
                         g_pulse_count g_current_rpm last_state].
  destruct (_ >=? _); cbn.
  - rewrite computeRPM_no_edges by (cbn; exact Hc). auto.
  - auto.
Qed.

(** The elapsed-time idiom against the wrap-around difference: equal
    when the tick has not wrapped, one microsecond short when it has. *)
Lemma tick_elapsed_spec (now t : Z) :
  0 <= now < 2 ^ 32 -> 0 <= t < 2 ^ 32 ->
  tick_elapsed now t
  = if now <? t then ref_age now t - 1 else ref_age now t.
Proof.
  intros Hn Ht. unfold tick_elapsed, ref_age, u32.
  change (2 ^ 32) with 4294967296 in *.
  destruct (Z.ltb_spec now t) as [Hlt | Hge].
  - rewrite (Z.mod_small (4294967295 - t)) by lia.
    rewrite (Z.mod_small (4294967295 - t + now)) by lia.
    replace (now - t) with (now - t + 4294967296 + (-1) * 4294967296) by lia.
    rewrite Z.mod_add by lia. rewrite Z.mod_small; lia.
  - reflexivity.
Qed.

(** C6 on the code, at the input of the scenario: an edge stamped
    4294967290 queried at tick 5.  The elapsed-time idiom yields 10 where
    the elapsed time modulo 2^32 is 11, and the counting loop skips the
    edge, although its age is inside the window. *)
Example wrapped_edge_is_not_counted :
  tick_elapsed 5 4294967290 = 10
  /\ ref_age 5 4294967290 = 11
  /\ logged_edges ring_with_wrapped_edge = [4294967290]
  /\ counted 5 4294967290 = false
  /\ count_pulses_in_window ring_with_wrapped_edge 5 = 0
  /\ ref_edges_in_window 5 (logged_edges ring_with_wrapped_edge) = 1.
Proof. vm_compute. repeat split; reflexivity. Qed.

(** C5 on the code, at the same input: one edge whose age is 11
    microseconds, three blades; the reference estimate is
    [(1/3) * 120 = 40] and the value the thread publishes is 0. *)
Example wrapped_edge_estimate_is_zero :
  computeRPM ring_with_wrapped_edge 5 = 0%float
  /\ ref_estimate NUM_BLADES 5 (logged_edges ring_with_wrapped_edge) = 40%float
  /\ g_current_rpm
       (rpmThread_step 1 0 100005
          (rpmThread_step 1 4294967290 4294967291
             (rpm_start (replicate 1000 0) 0))) = 0%float
  /\ ref_estimate NUM_BLADES 100005 [4294967290] = 40%float.
Proof. vm_compute. repeat split; reflexivity. Qed.

(* ===================================================================== *)
(** * 14. Properties of the control loop *)
(* ===================================================================== *)

(** ** Traces of the motor and command functions *)

Lemma quiet_refl (w : World) : quiet w w.
Proof. exists []. split; [symmetry; apply app_nil_r | reflexivity]. Qed.

Lemma quiet_emit (e : event) (w w' : World) :
  is_reopen e = false -> quiet w w' -> quiet w (emit e w').
Proof.
  intros He (evs & Ht & Hq). exists (evs ++ [e])%list. split.
  - cbn. rewrite Ht, app_assoc. reflexivity.
  - rewrite existsb_app, Hq. cbn. rewrite He. reflexivity.
Qed.

Lemma quiet_printf (fmt : string) (args : list parg) (w w' : World) :
  quiet w w' -> quiet w (printf fmt args w').
Proof. apply quiet_emit. reflexivity. Qed.

Lemma quiet_with_glob (f : Globals -> Globals) (w w' : World) :
  quiet w w' -> quiet w (with_glob f w').
Proof. intros H. exact H. Qed.

Lemma quiet_gpioPWM (pin duty : Z) (w w' : World) :
  quiet w w' -> quiet w (gpioPWM pin duty w').
Proof.
  intros (evs & Ht & Hq). exists (evs ++ [GpioPWM pin duty])%list. split.
  - cbn. rewrite Ht, app_assoc. reflexivity.
  - rewrite existsb_app, Hq. reflexivity.
Qed.

Lemma quiet_gpioWrite (pin level : Z) (w w' : World) :
  quiet w w' -> quiet w (gpioWrite pin level w').
Proof.
  intros (evs & Ht & Hq). exists (evs ++ [GpioWrite pin level])%list. split.
  - cbn. rewrite Ht, app_assoc. reflexivity.
  - rewrite existsb_app, Hq. reflexivity.
Qed.

Ltac quiet_steps :=
  repeat first
    [ assumption
    | apply quiet_printf
    | apply quiet_gpioWrite
    | apply quiet_gpioPWM
    | apply quiet_with_glob
    | match goal with
      | |- quiet _ (if ?b then _ else _) => destruct b
      end ].

Lemma quiet_setDirection (dir : Z) (w w' : World) :
  quiet w w' -> quiet w (setDirection dir w').
Proof. intros Hq. unfold setDirection. cbv zeta. quiet_steps. Qed.

Lemma quiet_setSpeed (speed : Z) (w w' : World) :
  quiet w w' -> quiet w (setSpeed speed w').
Proof. intros Hq. unfold setSpeed. cbv zeta. quiet_steps. Qed.

Lemma quiet_motorOff (w w' : World) : quiet w w' -> quiet w (motorOff w').
Proof. intros Hq. unfold motorOff. cbv zeta. quiet_steps. Qed.

Lemma quiet_motorOn (w w' : World) : quiet w w' -> quiet w (motorOn w').
Proof.
  intros Hq. unfold motorOn. cbv zeta.
  destruct (negb _); quiet_steps.
  apply quiet_setSpeed, quiet_setDirection. quiet_steps.
Qed.

Section Loop.
Context `{Platform}.

(** No command makes the program open the command pipe. *)
Lemma quiet_processCommand (rpm : float) (input : string) (w w' : World) :
  quiet w w' -> quiet w (processCommand rpm input w').
Proof.
  intros Hq. unfold processCommand. cbv zeta.
  repeat first
    [ assumption
    | apply quiet_printf
    | apply quiet_with_glob
    | apply quiet_motorOff
    | apply quiet_motorOn
    | apply quiet_setSpeed
    | apply quiet_setDirection
    | match goal with
      | |- quiet _ (if ?b then _ else _) => destruct b
      end ].
Qed.

(** The keyboard branch leaves the bridge alone and opens nothing. *)
Lemma phase_stdin_bridge (env : CycleEnv) (p p1 : Proc) :
  phase_stdin env p = Some p1 ->
  bridge p1 = bridge p /\ quiet (world p) (world p1).
Proof.
  unfold phase_stdin. destruct (_ && _).
  - destruct (stdin_line env) as [input|]; [|discriminate].
    intros [= <-]. split; [reflexivity|].
    cbn. apply quiet_processCommand, quiet_refl.
  - intros [= <-]. split; [reflexivity | apply quiet_refl].
Qed.

(** ** Frame of the reconnection phases *)

Ltac solve_extends :=
  first [ exists []; cbn; rewrite app_nil_r; reflexivity
        | eexists; cbn; rewrite <- ?app_assoc; reflexivity ].

Lemma phase_reconnect_frame (env : CycleEnv) (p : Proc) :
  glob (world (phase_reconnect env p)) = glob (world p)
  /\ pins (world (phase_reconnect env p)) = pins (world p)
  /\ extends (world p) (world (phase_reconnect env p)).
Proof.
  unfold phase_reconnect, openPipe, extends.
  repeat match goal with
    | |- context [if ?b then _ else _] => destruct b
    end; cbn; repeat split; solve_extends.
Qed.

Lemma phase_rpm_reconnect_frame (env : CycleEnv) (p : Proc) :
  glob (world (phase_rpm_reconnect env p)) = glob (world p)
  /\ pins (world (phase_rpm_reconnect env p)) = pins (world p)
  /\ extends (world p) (world (phase_rpm_reconnect env p)).
Proof.
  unfold phase_rpm_reconnect, openRPMPipe, extends.
  repeat match goal with
    | |- context [if ?b then _ else _] => destruct b
    end; cbn; repeat split; solve_extends.
Qed.

Lemma phase_periodic_idle (env : CycleEnv) (p : Proc) :
  sel_ready env > 0 -> phase_periodic env p = p.
Proof.
  intros Hr. unfold phase_periodic.
  destruct (Z.eqb_spec (sel_ready env) 0); [lia | reflexivity].
Qed.

(** The pipe branch on end-of-stream, step by step. *)
Lemma phase_pipe_eof (env : CycleEnv) (p : Proc) :
  g_pipe_fd (bridge p) <> -1 -> sel_ready env > 0 ->
  sel_pipe env = true -> pipe_line env = None ->
  stopped_manual (phase_pipe env p)
  /\ g_pipe_fd (bridge (phase_pipe env p)) = -1
  /\ exists closing,
       trace (world (phase_pipe env p))
       = (trace (world p)
          ++ [Printf "BLE server disconnected! TURNING MOTOR OFF FOR SAFETY!" []]
          ++ motor_off_events ++ closing)%list
       /\ existsb is_reopen closing = false.
Proof.
  intros Hfd Hr Hs Hl. unfold phase_pipe.
  destruct (Z.eqb_spec (g_pipe_fd (bridge p)) (-1)) as [|_]; [contradiction|].
  replace (sel_ready env >? 0) with true by (symmetry; apply Z.gtb_lt; lia).
  rewrite Hs, Hl. cbn [negb andb]. unfold closePipe.
  split; [|split].
  - unfold stopped_manual.
    repeat match goal with
      | |- context [if ?b then _ else _] => destruct b
      end; cbn; repeat split.
  - reflexivity.
  - cbn [bridge on_world].
    destruct (g_pipe_stream (bridge p)), (negb _); cbn;
      eexists; (split; [rewrite <- ?app_assoc; cbn; reflexivity | reflexivity]).
Qed.

(** C1. When [fgets] on the command pipe returns NULL in a pass of the
    loop, then for every prior state: right after the pipe branch of that
    pass -- before the reconnection code runs -- the motor is disabled
    with PWM 0 and all lines low, the mode is manual, and no attempt to
    open the pipe has been made in the pass; the pass ends normally in
    the same safe state; and in the events of the pass the writes of
    [motorOff] come before any attempt to reopen. *)
Theorem pipe_eof_forces_safe_stop (env : CycleEnv) (p p1 : Proc) :
  g_pipe_fd (bridge p) <> -1 ->
  sel_ready env > 0 ->
  sel_pipe env = true ->
  pipe_line env = None ->
  phase_stdin env p = Some p1 ->
  let p2 := phase_pipe env p1 in
  let p3 := phase_rpm_reconnect env (phase_periodic env (phase_reconnect env p2)) in
  main_cycle env p = (p3, Next)
  /\ stopped_manual p2
  /\ existsb is_reopen (events_since p p2) = false
  /\ stopped_manual p3
  /\ exists pre post,
       events_since p p3 = (pre ++ motor_off_events ++ post)%list
       /\ existsb is_reopen pre = false.
Proof.
  intros Hfd Hr Hs Hl Hin p2 p3.
  destruct (phase_stdin_bridge env p p1 Hin) as [Hb (evs1 & Ht1 & Hq1)].
  assert (Hfd1 : g_pipe_fd (bridge p1) <> -1) by (rewrite Hb; exact Hfd).
  destruct (phase_pipe_eof env p1 Hfd1 Hr Hs Hl)
    as (Hsafe2 & _ & closing & Ht2 & Hq2).
  fold p2 in Hsafe2, Ht2.
  destruct (phase_reconnect_frame env p2) as (Hg3 & Hp3 & e3 & Ht3).
  set (q := phase_reconnect env p2) in *.
  assert (Hper : phase_periodic env q = q) by (apply phase_periodic_idle, Hr).
  destruct (phase_rpm_reconnect_frame env q) as (Hg4 & Hp4 & e4 & Ht4).
  assert (Hp3eq : p3 = phase_rpm_reconnect env q).
  { unfold p3. rewrite Hper. reflexivity. }
  split; [|split; [|split; [|split]]].
  - unfold main_cycle.
    destruct (Z.ltb_spec (sel_ready env) 0); [lia|].
    rewrite Hin. reflexivity.
  - exact Hsafe2.
  - unfold events_since. rewrite Ht2, Ht1, <- app_assoc, drop_app_length.
    rewrite !existsb_app, Hq1, Hq2. reflexivity.
  - rewrite Hp3eq. unfold stopped_manual in *.
    rewrite Hg4, Hp4, Hg3, Hp3. exact Hsafe2.
  - exists (evs1 ++ [Printf "BLE server disconnected! TURNING MOTOR OFF FOR SAFETY!" []])%list,
           (closing ++ e3 ++ e4)%list.
    split.
    + unfold events_since. rewrite Hp3eq, Ht4, Ht3, Ht2, Ht1.
      rewrite <- !app_assoc, drop_app_length. reflexivity.
    + rewrite existsb_app, Hq1. reflexivity.
Qed.

(** ** The stored speed stays a percentage *)

Lemma sir_setSpeed (x : Z) (w : World) : speed_in_range (glob (setSpeed x w)).
Proof.
  unfold speed_in_range. rewrite setSpeed_stores_clamped.
  unfold clamp_percent. lia.
Qed.

Lemma sir_frame (f : World -> World) (w : World) :
  (forall w0, g_speed (glob (f w0)) = g_speed (glob w0)) ->
  speed_in_range (glob w) -> speed_in_range (glob (f w)).
Proof. unfold speed_in_range. intros Hf Hw. rewrite Hf. exact Hw. Qed.

Lemma setDirection_speed (dir : Z) (w : World) :
  g_speed (glob (setDirection dir w)) = g_speed (glob w).
Proof. unfold setDirection. destruct (dir =? 1); reflexivity. Qed.

Lemma sir_motorOn (w : World) :
  speed_in_range (glob w) -> speed_in_range (glob (motorOn w)).
Proof.
  intros Hw. unfold motorOn. destruct (negb _); [exact Hw|].
  cbv zeta. apply (sir_frame (printf _ _)); [reflexivity|]. apply sir_setSpeed.
Qed.

Lemma sir_processCommand (rpm : float) (input : string) (w : World) :
  speed_in_range (glob w) -> speed_in_range (glob (processCommand rpm input w)).
Proof.
  intros Hw. unfold processCommand. cbv zeta.
  repeat match goal with
    | |- speed_in_range (glob (if ?b then _ else _)) => destruct b
    end;
    first
      [ exact Hw
      | apply sir_setSpeed
      | apply sir_motorOn; exact Hw
      | apply (sir_frame (setDirection _)); [apply setDirection_speed | exact Hw]
      | exact Hw ].
Qed.

Lemma pidController_keeps_speed
    (current_rpm desired_rpm : float) (tick1 tick2 : Z) (g : Globals) :
  g_speed (snd (pidController current_rpm desired_rpm tick1 tick2 g)) = g_speed g.
Proof.
  unfold pidController.
  repeat match goal with
    | |- context [if ?b then _ else _] => destruct b
    end; reflexivity.
Qed.

Lemma sir_phase_periodic (env : CycleEnv) (p : Proc) :
  speed_in_range (glob (world p)) ->
  speed_in_range (glob (world (phase_periodic env p))).
Proof.
  intros Hp. unfold phase_periodic.
  destruct (sel_ready env =? 0); [|exact Hp].
  cbv zeta.
  assert (Hframe : forall rpm ok q, glob (world (print_status rpm (sendRPM rpm ok q)))
                                    = glob (world q)).
  { intros rpm ok q. unfold print_status, sendRPM, closeRPMPipe.
    repeat match goal with
      | |- context [if ?b then _ else _] => destruct b
      end; reflexivity. }
  rewrite Hframe.
  destruct (_ && _); [|exact Hp].
  destruct (pidController _ _ _ _ _) as [new_speed g'] eqn:Hpid.
  destruct (negb _).
  - apply sir_setSpeed.
  - cbn. unfold speed_in_range.
    replace g' with (snd (pidController (rpm_periodic env)
                            (g_desired_rpm (glob (world p)))
                            (pid_tick1 env) (pid_tick2 env) (glob (world p))))
      by (rewrite Hpid; reflexivity).
    rewrite pidController_keeps_speed. exact Hp.
Qed.

(** Every pass of the loop keeps the stored speed in [0,100]. *)
Lemma sir_main_cycle (env : CycleEnv) (p : Proc) :
  speed_in_range (glob (world p)) ->
  speed_in_range (glob (world (fst (main_cycle env p)))).
Proof.
  intros Hp. unfold main_cycle.
  destruct (sel_ready env <? 0); [destruct (sel_eintr env); exact Hp|].
  destruct (phase_stdin env p) as [p1|] eqn:Hin; [|exact Hp].
  cbn [fst].
  destruct (phase_rpm_reconnect_frame env
              (phase_periodic env (phase_reconnect env (phase_pipe env p1))))
    as (Hg & _). unfold speed_in_range at 1. rewrite Hg.
  apply sir_phase_periodic.
  destruct (phase_reconnect_frame env (phase_pipe env p1)) as (Hg' & _).
  unfold speed_in_range at 1. rewrite Hg'.
  assert (Hp1 : speed_in_range (glob (world p1))).
  { revert Hin. unfold phase_stdin. destruct (_ && _).
    - destruct (stdin_line env); [|discriminate].
      intros [= <-]. apply sir_processCommand, Hp.
    - intros [= <-]. exact Hp. }
  unfold phase_pipe. destruct (_ && _); [|exact Hp1].
  destruct (pipe_line env).
  - apply sir_processCommand, Hp1.
  - unfold closePipe.
    repeat match goal with
      | |- context [if ?b then _ else _] => destruct b
      end; exact Hp1.
Qed.

(** So the hypothesis on the stored speed in the PID theorems holds in
    every state the loop reaches from start-up. *)
Lemma sir_main_loop (envs : list CycleEnv) (p : Proc) :
  speed_in_range (glob (world p)) ->
  speed_in_range (glob (world (main_loop envs p))).
Proof.
  revert p. induction envs as [| env rest IH]; intros p Hp; [exact Hp|].
  cbn [main_loop].
  assert (Hclean : forall q, speed_in_range (glob (world q)) ->
                             speed_in_range (glob (world (cleanup q)))).
  { intros q Hq. unfold cleanup, closePipe, closeRPMPipe.
    repeat match goal with
      | |- context [if ?b then _ else _] => destruct b
      end; exact Hq. }
  destruct (negb _); [apply Hclean, Hp|].
  pose proof (sir_main_cycle env p Hp) as Hc.
  destruct (main_cycle env p) as [p' []]; cbn [fst] in Hc.
  - apply IH, Hc.
  - apply Hclean, Hc.
Qed.

Lemma sir_startup : speed_in_range (glob (world startup)).
Proof. unfold speed_in_range. cbn. lia. Qed.
End Loop.

(* ===================================================================== *)
(** * 15. The theorems on concrete runs *)
(* ===================================================================== *)

(** C1 on a running process whose pipe closes: motor on at 80 percent in
    automatic mode, reconnect due in the same pass. *)
Lemma pipe_eof_forces_safe_stop_witness :
  main_cycle (H := sample_platform) pipe_eof_pass running_connected
  = (after_eof_pass, Next)
  /\ stopped_manual after_eof_branch
  /\ existsb is_reopen (events_since running_connected after_eof_branch) = false
  /\ stopped_manual after_eof_pass
  /\ exists pre post,
       events_since running_connected after_eof_pass
       = (pre ++ motor_off_events ++ post)%list
       /\ existsb is_reopen pre = false.
Proof.
  apply (pipe_eof_forces_safe_stop (H := sample_platform)
           pipe_eof_pass running_connected running_connected).
  - discriminate.
  - reflexivity.
  - reflexivity.
  - reflexivity.
  - reflexivity.
Defined.

(** The events of that pass, in order: the stop, the close, and only then
    the attempt to reopen. *)
Example pipe_eof_pass_trace :
  trace (world (fst (main_cycle (H := sample_platform) pipe_eof_pass running_connected)))
  = [Printf "BLE server disconnected! TURNING MOTOR OFF FOR SAFETY!" [];
     Printf "-> Motor OFF" [];
     GpioPWM 17 0; GpioWrite 23 0; GpioWrite 24 0; GpioWrite 25 0;
     Fclose FIFO_PATH; Close 5;
     Printf "   Waiting for reconnect..." [];
     Open FIFO_PATH 7; Fdopen 7 true;
     Printf "BLE pipe connected! Ready for iPhone commands." []].
Proof. vm_compute. reflexivity. Qed.

(** C7 on the line [s 50] received in automatic mode. *)
Lemma manual_speed_commands_rejected_in_auto_witness :
  glob (processCommand (H := sample_platform) 0 (line "s 50") (world running_connected))
  = glob (world running_connected)
  /\ pins (processCommand (H := sample_platform) 0 (line "s 50") (world running_connected))
     = pins (world running_connected)
  /\ trace (processCommand (H := sample_platform) 0 (line "s 50") (world running_connected))
     = (trace (world running_connected) ++
        [Printf "-> Command: [%s]" [AStr (clean_line (line "s 50"))];
         Printf "-> ERROR: In AUTOMATIC mode. Manual speed control disabled." [];
         Printf "   Use 'auto <rpm>' to change target, or 'manual' to switch modes." []])%list.
Proof.
  apply (manual_speed_commands_rejected_in_auto (H := sample_platform)
           0 (line "s 50") (world running_connected)).
  - reflexivity.
  - right. right. exists "50". reflexivity.
Defined.

(** In manual mode the same line does change the speed. *)
Example speed_command_accepted_in_manual :
  g_speed (glob (world (main_loop (H := sample_platform)
                          [console_pass (line "s 50")] startup))) = 50.
Proof. vm_compute. reflexivity. Qed.

(** C8 on the code: [auto 3000] from start-up, one controller step that
    raises the speed from 30 to 32 and stamps the tick 777, then
    [auto 1500].  The second [auto] clears the integral and the last
    error and leaves the stabilization timestamp at 777. *)
Example auto_reentry_keeps_stabilization_timestamp :
  let p1 := main_loop (H := sample_platform)
              [console_pass (line "auto 3000"); timeout_pass 0 100 777] startup in
  let p2 := main_loop (H := sample_platform)
              [console_pass (line "auto 1500")] p1 in
  g_speed (glob (world p1)) = 32
  /\ g_last_speed_change_time (glob (world p1)) = 777
  /\ g_control_mode (glob (world p2)) = 1
  /\ g_desired_rpm (glob (world p2)) = 1500%float
  /\ g_pid_integral (glob (world p2)) = 0%float
  /\ g_pid_last_error (glob (world p2)) = 0%float
  /\ g_last_speed_change_time (glob (world p2)) = 777.
Proof. vm_compute. repeat split; reflexivity. Qed.

(** The stale timestamp is observable: a controller step 223
    microseconds later is held back by the stabilization gate, where a
    freshly reset controller would act. *)
Example stale_timestamp_gates_next_step :
  let g := mkGlobals 32 1 1 0 1 1500%float 0%float 0%float in
  fst (pidController (H := sample_platform) 0 1500 1000 1001 (g 777)) = 32
  /\ fst (pidController (H := sample_platform) 0 1500 1000 1001 (g 0)) = 34.
Proof. vm_compute. split; reflexivity. Qed.

(* ===================================================================== *)
(** * 16. Further properties: outputs and flags stay consistent *)
(* ===================================================================== *)

Lemma drive_ok_setSpeed (x : Z) (w : World) : drive_ok (setSpeed x w).
Proof.
  unfold drive_ok.
  pose proof (setSpeed_stores_clamped x w) as Hs.
  split; [rewrite Hs; unfold clamp_percent; lia|].
  revert Hs. unfold setSpeed, clamp_percent.
  destruct (x <? 0) eqn:Hlo.
  - intros _. left. cbn. auto.
  - apply Z.ltb_ge in Hlo. destruct (x >? 100) eqn:Hhi.
    + intros _. right. cbn. repeat split; lia.
    + rewrite Z.gtb_ltb in Hhi. apply Z.ltb_ge in Hhi.
      destruct (x =? 0) eqn:Hz; intros _.
      * left. cbn. auto.
      * apply Z.eqb_neq in Hz. right. cbn. repeat split; try lia.
        unfold int32. rewrite Z.mod_small by lia.
        rewrite Z.quot_div_nonneg by lia. f_equal. lia.
Qed.

Lemma setSpeed_lines (x : Z) (w : World) :
  in1 (pins (setSpeed x w)) = in1 (pins w)
  /\ in2 (pins (setSpeed x w)) = in2 (pins w).
Proof.
  unfold setSpeed.
  repeat match goal with
    | |- context [if ?b then _ else _] => destruct b
    end; split; reflexivity.
Qed.

Lemma hw_ok_setSpeed (x : Z) (w : World) : lines_ok w -> hw_ok (setSpeed x w).
Proof.
  intros Hl. split; [apply drive_ok_setSpeed|].
  unfold lines_ok in *. destruct (setSpeed_lines x w) as [-> ->]. exact Hl.
Qed.

Lemma lines_ok_setDirection (dir : Z) (w : World) : lines_ok (setDirection dir w).
Proof.
  unfold lines_ok, setDirection. destruct (dir =? 1); cbn; auto.
Qed.

Lemma hw_ok_setDirection (dir : Z) (w : World) :
  drive_ok w -> hw_ok (setDirection dir w).
Proof.
  intros Hd. split; [|apply lines_ok_setDirection].
  unfold drive_ok, setDirection in *. destruct (dir =? 1); exact Hd.
Qed.

Lemma hw_ok_motorOff (w : World) :
  0 <= g_speed (glob w) <= 100 -> hw_ok (motorOff w).
Proof.
  intros Hs. split.
  - split; [exact Hs|]. left. repeat split.
  - left. split; reflexivity.
Qed.

Lemma hw_ok_motorOn (w : World) : hw_ok w -> hw_ok (motorOn w).
Proof.
  intros Hw. unfold motorOn. destruct (negb _); [exact Hw|].
  cbv zeta.
  assert (Hp : forall fmt args w0, hw_ok w0 -> hw_ok (printf fmt args w0))
    by (intros ? ? ? H0; exact H0).
  apply Hp, hw_ok_setSpeed, lines_ok_setDirection.
Qed.

Section Consistency.
Context `{Platform}.

Lemma hw_ok_processCommand (rpm : float) (input : string) (w : World) :
  hw_ok w -> hw_ok (processCommand rpm input w).
Proof.
  intros Hw. pose proof Hw as [[Hs _] _].
  unfold processCommand. cbv zeta.
  repeat match goal with
    | |- hw_ok (if ?b then _ else _) => destruct b
    end;
    first
      [ exact Hw
      | apply hw_ok_motorOn; exact Hw
      | apply hw_ok_motorOff; exact Hs
      | apply hw_ok_setDirection; destruct Hw as [Hd _]; exact Hd
      | apply hw_ok_setSpeed; destruct Hw as [_ Hl]; exact Hl
      | apply hw_ok_setSpeed;
        match goal with
        | |- lines_ok (if ?b then _ else _) => destruct b
        end; apply lines_ok_setDirection ].
Qed.

Lemma hw_ok_phase_periodic (env : CycleEnv) (p : Proc) :
  hw_ok (world p) -> hw_ok (world (phase_periodic env p)).
Proof.
  intros Hp. unfold phase_periodic.
  destruct (sel_ready env =? 0); [|exact Hp].
  cbv zeta.
  assert (Hframe : forall rpm ok q,
             hw_ok (world q) -> hw_ok (world (print_status rpm (sendRPM rpm ok q)))).
  { intros rpm ok q Hq. unfold print_status, sendRPM, closeRPMPipe.
    repeat match goal with
      | |- context [if ?b then _ else _] => destruct b
      end; exact Hq. }
  apply Hframe.
  destruct (_ && _); [|exact Hp].
  destruct (pidController _ _ _ _ _) as [new_speed g'] eqn:Hpid.
  pose proof (pidController_keeps_speed (rpm_periodic env)
                (g_desired_rpm (glob (world p))) (pid_tick1 env) (pid_tick2 env)
                (glob (world p))) as Hkeep.
  rewrite Hpid in Hkeep. cbn [snd] in Hkeep.
  destruct (negb _).
  - apply hw_ok_setSpeed. destruct Hp as [_ Hl]. exact Hl.
  - (* the controller changed none of the flags the invariant reads *)
    revert Hpid. unfold pidController.
    repeat match goal with
      | |- context [if ?b then _ else _] => destruct b
      end; intros [= _ <-]; exact Hp.
Qed.

Lemma hw_ok_main_cycle (env : CycleEnv) (p : Proc) :
  hw_ok (world p) -> hw_ok (world (fst (main_cycle env p))).
Proof.
  intros Hp. unfold main_cycle.
  destruct (sel_ready env <? 0); [destruct (sel_eintr env); exact Hp|].
  destruct (phase_stdin env p) as [p1|] eqn:Hin; [|exact Hp].
  cbn [fst].
  assert (Hrec : forall q, hw_ok (world q) -> hw_ok (world (phase_reconnect env q))).
  { intros q Hq. destruct (phase_reconnect_frame env q) as (Hg & Hpn & _).
    unfold hw_ok, drive_ok, lines_ok in *. rewrite Hg, Hpn. exact Hq. }
  assert (Hrpm : forall q, hw_ok (world q) -> hw_ok (world (phase_rpm_reconnect env q))).
  { intros q Hq. destruct (phase_rpm_reconnect_frame env q) as (Hg & Hpn & _).
    unfold hw_ok, drive_ok, lines_ok in *. rewrite Hg, Hpn. exact Hq. }
  apply Hrpm, hw_ok_phase_periodic, Hrec.
  assert (Hp1 : hw_ok (world p1)).
  { revert Hin. unfold phase_stdin. destruct (_ && _).
    - destruct (stdin_line env); [|discriminate].
      intros [= <-]. apply hw_ok_processCommand, Hp.
    - intros [= <-]. exact Hp. }
  unfold phase_pipe. destruct (_ && _); [|exact Hp1].
  destruct (pipe_line env).
  - apply hw_ok_processCommand, Hp1.
  - assert (Hoff : hw_ok (motorOff (world p1)))
      by (apply hw_ok_motorOff; destruct Hp1 as [[Hs _] _]; exact Hs).
    unfold closePipe.
    repeat match goal with
      | |- context [if ?b then _ else _] => destruct b
      end; exact Hoff.
Qed.

Lemma hw_ok_cleanup (p : Proc) : hw_ok (world p) -> hw_ok (world (cleanup p)).
Proof.
  intros [[Hs _] _].
  assert (Hoff : hw_ok (motorOff (world p))) by (apply hw_ok_motorOff, Hs).
  unfold cleanup, closePipe, closeRPMPipe.
  repeat match goal with
    | |- context [if ?b then _ else _] => destruct b
    end; exact Hoff.
Qed.

Lemma hw_ok_main_loop (envs : list CycleEnv) (p : Proc) :
  hw_ok (world p) -> hw_ok (world (main_loop envs p)).
Proof.
  revert p. induction envs as [| env rest IH]; intros p Hp; [exact Hp|].
  cbn [main_loop].
  destruct (negb _); [apply hw_ok_cleanup, Hp|].
  pose proof (hw_ok_main_cycle env p Hp) as Hc.
  destruct (main_cycle env p) as [p' []]; cbn [fst] in Hc.
  - apply IH, Hc.
  - apply hw_ok_cleanup, Hc.
Qed.

Lemma hw_ok_startup : hw_ok (world startup).
Proof.
  split; [split; [cbn; lia | left; repeat split] | left; split; reflexivity].
Qed.

(** In every state the loop reaches from start-up, whatever arrives on
    the console and the pipe and whatever the clock and the estimator
    report: either the motor is disabled with PWM duty 0 and the LED low,
    or it is enabled (flag 1) with a stored speed between 1 and 100, the
    PWM duty [speed * 255 / 100] and the LED high.  In particular the
    loop, which calls the controller only for an enabled motor, never
    calls it with a stored speed of 0. *)
Theorem outputs_agree_with_enabled_flag (envs : list CycleEnv) :
  (g_motor_on (glob (world (main_loop envs startup))) = 0
   /\ pwm_enable (pins (world (main_loop envs startup))) = 0
   /\ led (pins (world (main_loop envs startup))) = 0)
  \/ (g_motor_on (glob (world (main_loop envs startup))) = 1
      /\ 1 <= g_speed (glob (world (main_loop envs startup))) <= 100
      /\ pwm_enable (pins (world (main_loop envs startup)))
         = g_speed (glob (world (main_loop envs startup))) * 255 / 100
      /\ led (pins (world (main_loop envs startup))) = 1).
Proof.
  destruct (hw_ok_main_loop envs startup hw_ok_startup) as [[Hs [Hd | Hd]] _].
  - left. exact Hd.
  - right. repeat split; lia.
Qed.

(** In every state the loop reaches from start-up the PWM duty is within
    the range 0..255 set at initialisation. *)
Theorem pwm_duty_within_range (envs : list CycleEnv) :
  0 <= pwm_enable (pins (world (main_loop envs startup))) <= 255.
Proof.
  destruct (hw_ok_main_loop envs startup hw_ok_startup) as [[Hs [Hd | Hd]] _].
  - lia.
  - destruct Hd as (_ & H1 & -> & _).
    split; [apply Z.div_pos; lia|].
    apply Z.div_le_upper_bound; lia.
Qed.

(** Between passes of the loop the two direction lines are never both
    high: they are both low (brake), or exactly one of them is high. *)
Theorem direction_lines_never_both_high (envs : list CycleEnv) :
  both_high (pins (world (main_loop envs startup))) = false
  /\ 0 <= in1 (pins (world (main_loop envs startup))) <= 1
  /\ 0 <= in2 (pins (world (main_loop envs startup))) <= 1.
Proof.
  destruct (hw_ok_main_loop envs startup hw_ok_startup) as [_ Hl].
  unfold lines_ok, both_high in *.
  destruct Hl as [[-> ->] | [[-> ->] | [-> ->]]]; cbn; lia.
Qed.
End Consistency.

(* ===================================================================== *)
(** * 17. Further properties of the motor actuator *)
(* ===================================================================== *)

(** After any sequence of [setSpeed] calls the stored speed is the clamp
    of the last argument, whatever the earlier calls and the earlier
    state were, and the outputs agree with it. *)
Theorem setSpeed_sequence_stores_last_clamped (xs : list Z) (x : Z) (w : World) :
  g_speed (glob (fold_left (fun w0 y => setSpeed y w0) (xs ++ [x]) w))
  = clamp_percent x
  /\ drive_ok (fold_left (fun w0 y => setSpeed y w0) (xs ++ [x]) w).
Proof.
  rewrite fold_left_app. cbn [fold_left].
  split; [apply setSpeed_stores_clamped | apply drive_ok_setSpeed].
Qed.

Lemma new_events_app (w w' : World) (evs : list event) :
  trace w' = (trace w ++ evs)%list -> new_events w w' = evs.
Proof. intros Ht. unfold new_events. rewrite Ht. apply drop_app_length. Qed.

(** Switching to forward while the reverse line is high: [setDirection 1]
    raises IN1 before it lowers IN2, so the lines pass through the state
    with both of them high. *)
Theorem forward_switch_passes_through_both_high (w : World) :
  in2 (pins w) = 1 ->
  existsb both_high (pin_states (new_events w (setDirection 1 w)) (pins w)) = true
  /\ last (pin_states (new_events w (setDirection 1 w)) (pins w))
     = Some (pins (setDirection 1 w)).
Proof.
  intros Hrev.
  rewrite (new_events_app w (setDirection 1 w)
             [Printf "-> Direction: FORWARD" []; GpioWrite MOTOR_IN1_PIN 1;
              GpioWrite MOTOR_IN2_PIN 0])
    by (cbn; rewrite <- !app_assoc; reflexivity).
  cbn. unfold both_high. cbn. rewrite Hrev.
  destruct (in1 (pins w) =? 1); split; reflexivity.
Qed.

(** Switching to reverse lowers IN1 first: from a state without both
    lines high, [setDirection dir] with [dir] other than 1 never has both
    lines high on the way. *)
Theorem reverse_switch_avoids_both_high (dir : Z) (w : World) :
  dir <> 1 ->
  both_high (pins w) = false ->
  existsb both_high (pin_states (new_events w (setDirection dir w)) (pins w)) = false
  /\ last (pin_states (new_events w (setDirection dir w)) (pins w))
     = Some (pins (setDirection dir w)).
Proof.
  intros Hdir Hnot.
  assert (Hev : trace (setDirection dir w)
                = (trace w ++ [Printf "-> Direction: REVERSE" [];
                               GpioWrite MOTOR_IN1_PIN 0;
                               GpioWrite MOTOR_IN2_PIN 1])%list).
  { unfold setDirection. destruct (Z.eqb_spec dir 1); [contradiction|].
    cbn. rewrite <- !app_assoc. reflexivity. }
  rewrite (new_events_app _ _ _ Hev).
  unfold setDirection. destruct (Z.eqb_spec dir 1); [contradiction|].
  cbn. rewrite Hnot. unfold both_high. cbn. split; reflexivity.
Qed.

Lemma setSpeed_flag (x : Z) (w : World) :
  g_motor_on (glob (setSpeed x w)) = if clamp_percent x =? 0 then 0 else 1.
Proof.
  unfold setSpeed, clamp_percent.
  destruct (Z.ltb_spec x 0).
  - replace (Z.max 0 (Z.min x 100)) with 0 by lia. reflexivity.
  - rewrite Z.gtb_ltb. destruct (Z.ltb_spec 100 x).
    + replace (Z.max 0 (Z.min x 100)) with 100 by lia. reflexivity.
    + replace (Z.max 0 (Z.min x 100)) with x by lia.
      destruct (x =? 0); reflexivity.
Qed.

Lemma motorOn_enables (w : World) :
  hw_ok w -> g_motor_on (glob (motorOn w)) = 1.
Proof.
  intros [[Hs Hd] _]. unfold motorOn.
  destruct (Z.eqb_spec (g_motor_on (glob w)) 0) as [Hoff | Hon]; cbn [negb].
  - cbv zeta. cbn [glob printf emit].
    rewrite setSpeed_flag, setDirection_speed.
    cbn [glob with_glob g_speed set_motor_on].
    unfold clamp_percent.
    destruct (Z.eqb_spec (g_speed (glob w)) 0);
      cbn [glob with_glob g_speed set_speed_var];
      match goal with |- context [Z.eqb ?a 0] => destruct (Z.eqb_spec a 0) end;
      lia.
  - cbn [glob printf emit]. destruct Hd as [Hd | Hd]; lia.
Qed.

Lemma motorOn_when_on (w : World) :
  g_motor_on (glob w) <> 0 -> motorOn w = printf "-> Motor already ON" [] w.
Proof.
  intros Hon. unfold motorOn.
  destruct (Z.eqb_spec (g_motor_on (glob w)) 0); [contradiction | reflexivity].
Qed.

(** [motorOn] is idempotent on a consistent state: a second call right
    after the first only prints a message; the globals and the output
    lines stay as the first call left them. *)
Theorem motorOn_idempotent (w : World) :
  hw_ok w ->
  glob (motorOn (motorOn w)) = glob (motorOn w)
  /\ pins (motorOn (motorOn w)) = pins (motorOn w)
  /\ new_events (motorOn w) (motorOn (motorOn w))
     = [Printf "-> Motor already ON" []].
Proof.
  intros Hw. pose proof (motorOn_enables w Hw) as Hon.
  rewrite (motorOn_when_on (motorOn w)) by lia.
  repeat split. apply new_events_app. reflexivity.
Qed.

Lemma setSpeed_on (x : Z) (w : World) :
  1 <= x <= 100 ->
  setSpeed x w
  = gpioWrite LED_PIN 1
      (gpioPWM MOTOR_ENABLE_PIN (x * 255 / 100)
         (with_glob (set_motor_on 1)
            (printf "-> Speed: %d%%" [AInt x] (with_glob (set_speed_var x) w)))).
Proof.
  intros Hx. unfold setSpeed.
  destruct (Z.ltb_spec x 0); [lia|].
  rewrite Z.gtb_ltb. destruct (Z.ltb_spec 100 x); [lia|].
  destruct (Z.eqb_spec x 0); [lia|].
  cbv zeta. do 2 f_equal.
  unfold int32. rewrite Z.mod_small by lia.
  rewrite Z.quot_div_nonneg by lia. f_equal. lia.
Qed.

(** Stop and resume: on a consistent state with the motor enabled,
    [motorOff] followed by [motorOn] restores every global, the PWM duty
    and the LED, and sets the direction lines from the stored direction
    (forward for 1, reverse for any other value). *)
Theorem motorOff_then_motorOn_resumes (w : World) :
  hw_ok w ->
  g_motor_on (glob w) = 1 ->
  glob (motorOn (motorOff w)) = glob w
  /\ pwm_enable (pins (motorOn (motorOff w))) = pwm_enable (pins w)
  /\ led (pins (motorOn (motorOff w))) = led (pins w)
  /\ (in1 (pins (motorOn (motorOff w))), in2 (pins (motorOn (motorOff w))))
     = (if g_direction (glob w) =? 1 then (1, 0) else (0, 1)).
Proof.
  intros [[Hs [Hd | Hd]] _] Hon; [lia|].
  destruct Hd as (_ & H1 & Hpwm & Hled).
  unfold motorOn.
  change (g_motor_on (glob (motorOff w))) with 0.
  cbn [Z.eqb negb]. cbv zeta.
  change (g_speed (glob (motorOff w))) with (g_speed (glob w)).
  destruct (Z.eqb_spec (g_speed (glob w)) 0); [lia|].
  rewrite setDirection_speed.
  change (g_speed (glob (with_glob (set_motor_on 1) (motorOff w))))
    with (g_speed (glob w)).
  rewrite setSpeed_on by lia.
  change (g_direction (glob (with_glob (set_motor_on 1) (motorOff w))))
    with (g_direction (glob w)).
  rewrite Hpwm, Hled. unfold setDirection.
  destruct w as [g p t]. destruct g as [sp mo di qu cm dr pi pe ti].
  cbn [glob g_direction g_motor_on] in *. subst mo.
  destruct (di =? 1); repeat split.
Qed.

(* ===================================================================== *)
(** * 18. Further properties of the command interpreter *)
(* ===================================================================== *)

Lemma cut_at_stops (c : ascii) (s rest : string) :
  has_char c s = false -> cut_at c (s ++ String c rest) = s.
Proof.
  induction s as [| a s IH]; cbn.
  - rewrite Ascii.eqb_refl. reflexivity.
  - intros Hf. apply orb_false_elim in Hf as [Ha Hs].
    rewrite Ha, (IH Hs). reflexivity.
Qed.

Lemma cut_at_free (c : ascii) (s : string) :
  has_char c s = false -> cut_at c s = s.
Proof.
  induction s as [| a s IH]; cbn; [reflexivity|].
  intros Hf. apply orb_false_elim in Hf as [Ha Hs].
  rewrite Ha, (IH Hs). reflexivity.
Qed.

Lemma cut_at_app_free (c : ascii) (s t : string) :
  has_char c s = false -> cut_at c (s ++ t) = s ++ cut_at c t.
Proof.
  induction s as [| a s IH]; cbn; [reflexivity|].
  intros Hf. apply orb_false_elim in Hf as [Ha Hs].
  rewrite Ha, (IH Hs). reflexivity.
Qed.

Lemma clean_line_terminated (c rest : string) (t : ascii) :
  has_char "010"%char c = false -> has_char "013"%char c = false ->
  t = "010"%char \/ t = "013"%char ->
  clean_line (c ++ String t rest) = c.
Proof.
  intros Hlf Hcr [-> | ->]; unfold clean_line.
  - rewrite (cut_at_stops _ _ _ Hlf). apply cut_at_free, Hcr.
  - rewrite (cut_at_app_free _ _ _ Hlf). cbn [cut_at].
    change (Ascii.eqb "013" "010") with false. cbv iota.
    apply (cut_at_stops "013"%char c (cut_at "010"%char rest) Hcr).
Qed.

Section MoreCommands.
Context `{Platform}.

Lemma processCommand_clean (rpm : float) (a b : string) (w : World) :
  clean_line a = clean_line b ->
  processCommand rpm a w = processCommand rpm b w.
Proof.
  intros Hab. unfold processCommand.
  change (cut_at "013"%char (cut_at "010"%char a)) with (clean_line a).
  change (cut_at "013"%char (cut_at "010"%char b)) with (clean_line b).
  rewrite Hab. reflexivity.
Qed.

(** The interpreter reads a command up to its first line feed or carriage
    return: a command free of both is handled the same with nothing after
    it, with a newline, with a carriage return and newline, or with any
    further text after the terminator. *)
Theorem command_read_up_to_line_end
    (rpm : float) (c rest : string) (t : ascii) (w : World) :
  has_char "010"%char c = false -> has_char "013"%char c = false ->
  t = "010"%char \/ t = "013"%char ->
  processCommand rpm (c ++ String t rest) w = processCommand rpm c w.
Proof.
  intros Hlf Hcr Ht. apply processCommand_clean.
  rewrite (clean_line_terminated c rest t Hlf Hcr Ht).
  unfold clean_line. rewrite (cut_at_free _ _ Hlf). symmetry.
  apply cut_at_free, Hcr.
Qed.

(** A line that is empty once its end is removed is ignored without any
    effect, not even an echo. *)
Theorem empty_command_is_ignored (rpm : float) (input : string) (w : World) :
  clean_line input = "" -> processCommand rpm input w = w.
Proof.
  intros Hc. unfold processCommand.
  change (cut_at "013"%char (cut_at "010"%char input)) with (clean_line input).
  rewrite Hc. reflexivity.
Qed.

(** A command outside the vocabulary changes neither the globals nor the
    output lines, in manual and in automatic mode; it is only echoed and
    answered by a message. *)
Theorem unknown_command_changes_nothing
    (rpm : float) (input : string) (w : World) :
  in_vocabulary (clean_line input) = false ->
  glob (processCommand rpm input w) = glob w
  /\ pins (processCommand rpm input w) = pins w.
Proof.
  unfold in_vocabulary, processCommand.
  change (cut_at "013"%char (cut_at "010"%char input)) with (clean_line input).
  generalize (clean_line input). intros c Hv.
  repeat match type of Hv with
    | (_ || _) = false => apply orb_false_elim in Hv as [Hv ?]
    end.
  repeat match goal with
    | Hb : ?b = false |- context [if ?b then _ else _] => rewrite Hb
    end.
  destruct (String.length c =? 0)%nat; [split; reflexivity|].
  cbv zeta. cbn [glob printf emit].
  destruct (g_control_mode (glob w) =? 1); split; reflexivity.
Qed.
End MoreCommands.

(** ** What the motor functions do to the globals *)

Lemma setSpeed_glob (x : Z) (w : World) :
  glob (setSpeed x w)
  = set_motor_on (if clamp_percent x =? 0 then 0 else 1)
      (set_speed_var (clamp_percent x) (glob w)).
Proof.
  unfold setSpeed, clamp_percent.
  destruct (Z.ltb_spec x 0).
  - replace (Z.max 0 (Z.min x 100)) with 0 by lia. reflexivity.
  - rewrite Z.gtb_ltb. destruct (Z.ltb_spec 100 x).
    + replace (Z.max 0 (Z.min x 100)) with 100 by lia. reflexivity.
    + replace (Z.max 0 (Z.min x 100)) with x by lia.
      destruct (x =? 0); reflexivity.
Qed.

Lemma setDirection_glob (dir : Z) (w : World) :
  glob (setDirection dir w) = set_direction_var dir (glob w).
Proof. unfold setDirection. destruct (dir =? 1); reflexivity. Qed.

Lemma clamp_target_bounds (d : float) :
  (clamp_target d <? 0)%float = false /\ (10000 <? clamp_target d)%float = false.
Proof.
  unfold clamp_target.
  destruct (d <? 0)%float eqn:E1.
  - change (10000 <? 0)%float with false. cbv iota. split; reflexivity.
  - destruct (10000 <? d)%float eqn:E2.
    + split; reflexivity.
    + split; assumption.
Qed.

Section AutoCommand.
Context `{Platform}.

(** [auto N] for every argument text: the mode becomes automatic; the
    stored target is the parsed value clamped, so it is neither below 0
    nor above 10000; and on a consistent state the motor ends enabled
    exactly when the stored target is above 0 (a target of 0, and a NaN,
    stop it). *)
Theorem auto_command_sets_target_and_motor
    (rpm : float) (arg : string) (w : World) :
  has_char "010"%char arg = false -> has_char "013"%char arg = false ->
  hw_ok w ->
  g_control_mode (glob (processCommand rpm ("auto " ++ arg) w)) = 1
  /\ g_desired_rpm (glob (processCommand rpm ("auto " ++ arg) w))
     = clamp_target (atof arg)
  /\ (clamp_target (atof arg) <? 0)%float = false
  /\ (10000 <? clamp_target (atof arg))%float = false
  /\ g_motor_on (glob (processCommand rpm ("auto " ++ arg) w))
     = (if (0 <? clamp_target (atof arg))%float then 1 else 0).
Proof.
  intros Hlf Hcr [[Hs Hd] _].
  assert (Hclean : clean_line ("auto " ++ arg) = "auto " ++ arg).
  { unfold clean_line.
    rewrite (cut_at_free "010"%char) by exact Hlf.
    apply cut_at_free. exact Hcr. }
  destruct (clamp_target_bounds (atof arg)) as [Hb1 Hb2].
  unfold processCommand.
  change (cut_at "013"%char (cut_at "010"%char ("auto " ++ arg)))
    with (clean_line ("auto " ++ arg)).
  rewrite Hclean.
  change (String.length ("auto " ++ arg) =? 0)%nat with false.
  change (strncmp_eq ("auto " ++ arg) "auto " 5) with true.
  change (string_from 5 ("auto " ++ arg)) with arg.
  cbv iota zeta. fold (clamp_target (atof arg)).
  match goal with |- context [(0 <? ?d)%float] =>
    change d with (clamp_target (atof arg)) end.
  destruct (0 <? clamp_target (atof arg))%float.
  - match goal with |- context [g_motor_on ?g =? 0] =>
      change (g_motor_on g) with (g_motor_on (glob w)) end.
    destruct (Z.eqb_spec (g_motor_on (glob w)) 0) as [Hoff | Hon].
    + rewrite setSpeed_glob.
      match goal with |- context [if ?c then with_glob (set_speed_var 30) _ else _] =>
        destruct c eqn:Hc end;
        rewrite ?setDirection_glob in Hc; cbn [glob with_glob] in |- *;
        rewrite ?setDirection_glob; cbn in Hc |- *.
      * repeat split; assumption.
      * apply Z.eqb_neq in Hc.
        replace (clamp_percent (g_speed (glob w)) =? 0) with false
          by (symmetry; apply Z.eqb_neq; unfold clamp_percent; lia).
        repeat split; assumption.
    + cbn. repeat split; try assumption. destruct Hd as [Hd | Hd]; lia.
  - cbn. repeat split; assumption.
Qed.
End AutoCommand.

Section ManualCommands.
Context `{Platform}.

Lemma processCommand_plus (rpm : float) (w : World) :
  g_control_mode (glob w) <> 1 ->
  processCommand rpm "+" w
  = setSpeed (int32 (g_speed (glob w) + 10)) (printf "-> Command: [%s]" [AStr "+"] w).
Proof.
  intros Hm.
  change (processCommand rpm "+" w)
    with (if g_control_mode (glob w) =? 1
          then printf "   Use 'auto <rpm>' to change target, or 'manual' to switch modes." []
                 (printf "-> ERROR: In AUTOMATIC mode. Manual speed control disabled." []
                    (printf "-> Command: [%s]" [AStr "+"] w))
          else setSpeed (int32 (g_speed (glob w) + 10))
                 (printf "-> Command: [%s]" [AStr "+"] w)).
  destruct (Z.eqb_spec (g_control_mode (glob w)) 1); [contradiction | reflexivity].
Qed.

Lemma processCommand_minus (rpm : float) (w : World) :
  g_control_mode (glob w) <> 1 ->
  processCommand rpm "-" w
  = setSpeed (int32 (g_speed (glob w) - 10)) (printf "-> Command: [%s]" [AStr "-"] w).
Proof.
  intros Hm.
  change (processCommand rpm "-" w)
    with (if g_control_mode (glob w) =? 1
          then printf "   Use 'auto <rpm>' to change target, or 'manual' to switch modes." []
                 (printf "-> ERROR: In AUTOMATIC mode. Manual speed control disabled." []
                    (printf "-> Command: [%s]" [AStr "-"] w))
          else setSpeed (int32 (g_speed (glob w) - 10))
                 (printf "-> Command: [%s]" [AStr "-"] w)).
  destruct (Z.eqb_spec (g_control_mode (glob w)) 1); [contradiction | reflexivity].
Qed.

Lemma int32_small (z : Z) : -1000 <= z <= 1000 -> int32 z = z.
Proof. intros Hz. unfold int32. rewrite Z.mod_small; lia. Qed.

(** In manual mode, with a stored speed in [0,100], [+] and [-] move the
    speed by 10 and saturate: [+] stops at 100 and always leaves the motor
    enabled, also when it was off; [-] stops at 0, and from a speed of 10
    or less it disables the motor. *)
Theorem plus_minus_saturate (rpm : float) (w : World) :
  g_control_mode (glob w) <> 1 ->
  0 <= g_speed (glob w) <= 100 ->
  g_speed (glob (processCommand rpm "+" w)) = Z.min 100 (g_speed (glob w) + 10)
  /\ g_motor_on (glob (processCommand rpm "+" w)) = 1
  /\ g_speed (glob (processCommand rpm "-" w)) = Z.max 0 (g_speed (glob w) - 10)
  /\ g_motor_on (glob (processCommand rpm "-" w))
     = (if g_speed (glob w) <=? 10 then 0 else 1).
Proof.
  intros Hm Hs.
  rewrite processCommand_plus, processCommand_minus by exact Hm.
  rewrite !setSpeed_glob, !int32_small by lia.
  cbn [g_speed g_motor_on set_motor_on set_speed_var].
  unfold clamp_percent.
  repeat split; try lia.
  - destruct (Z.eqb_spec (Z.max 0 (Z.min (g_speed (glob w) + 10) 100)) 0); lia.
  - destruct (Z.leb_spec (g_speed (glob w)) 10);
      destruct (Z.eqb_spec (Z.max 0 (Z.min (g_speed (glob w) - 10) 100)) 0); lia.
Qed.



End ManualCommands.

(* ===================================================================== *)
(** * 19. Further properties of the control loop: leaving the loop *)
(* ===================================================================== *)

Lemma motorOn_glob_quit (w : World) :
  g_quit (glob (motorOn w)) = g_quit (glob w).
Proof.
  unfold motorOn. destruct (negb _); [reflexivity|].
  cbv zeta. cbn [glob printf emit].
  rewrite setSpeed_glob, setDirection_glob.
  destruct (g_speed (glob w) =? 0); reflexivity.
Qed.

Lemma cleanup_result (p : Proc) :
  motor_stopped (world (cleanup p))
  /\ pipes_closed (cleanup p)
  /\ g_quit (glob (world (cleanup p))) = 1.
Proof.
  unfold cleanup, closePipe, closeRPMPipe, motor_stopped, pipes_closed.
  repeat match goal with
    | |- context [if ?b then _ else _] => destruct b
    end; cbn; repeat split.
Qed.

Section LeavingTheLoop.
Context `{Platform}.

Lemma kq_with_glob (f : Globals -> Globals) (w : World) :
  (forall g, g_quit g <> 0 -> g_quit (f g) <> 0) ->
  g_quit (glob w) <> 0 -> g_quit (glob (with_glob f w)) <> 0.
Proof. intros Hf Hw. apply Hf, Hw. Qed.

Lemma kq_printf (fmt : string) (args : list parg) (w : World) :
  g_quit (glob w) <> 0 -> g_quit (glob (printf fmt args w)) <> 0.
Proof. intros Hw. exact Hw. Qed.

Lemma kq_setSpeed (x : Z) (w : World) :
  g_quit (glob w) <> 0 -> g_quit (glob (setSpeed x w)) <> 0.
Proof. intros Hw. rewrite setSpeed_glob. exact Hw. Qed.

Lemma kq_setDirection (dir : Z) (w : World) :
  g_quit (glob w) <> 0 -> g_quit (glob (setDirection dir w)) <> 0.
Proof. intros Hw. rewrite setDirection_glob. exact Hw. Qed.

Lemma kq_motorOff (w : World) :
  g_quit (glob w) <> 0 -> g_quit (glob (motorOff w)) <> 0.
Proof. intros Hw. exact Hw. Qed.

Lemma kq_motorOn (w : World) :
  g_quit (glob w) <> 0 -> g_quit (glob (motorOn w)) <> 0.
Proof. intros Hw. rewrite motorOn_glob_quit. exact Hw. Qed.

Lemma processCommand_keeps_quit (rpm : float) (input : string) (w : World) :
  g_quit (glob w) <> 0 -> g_quit (glob (processCommand rpm input w)) <> 0.
Proof.
  intros Hq. unfold processCommand. cbv zeta.
  repeat match goal with
    | |- g_quit (glob (if ?b then _ else _)) <> 0 => destruct b
    | |- g_quit (glob (printf _ _ _)) <> 0 => apply kq_printf
    | |- g_quit (glob (setSpeed _ _)) <> 0 => apply kq_setSpeed
    | |- g_quit (glob (setDirection _ _)) <> 0 => apply kq_setDirection
    | |- g_quit (glob (motorOff _)) <> 0 => apply kq_motorOff
    | |- g_quit (glob (motorOn _)) <> 0 => apply kq_motorOn
    | |- g_quit (glob (with_glob _ _)) <> 0 =>
        apply kq_with_glob; [intros g Hg; first [exact Hg | discriminate] |]
    end.
  all: exact Hq.
Qed.

Lemma processCommand_q (rpm : float) (input : string) (w : World) :
  clean_line input = "q" -> g_quit (glob (processCommand rpm input w)) = 1.
Proof.
  intros Hc. rewrite (processCommand_clean rpm input "q" w) by (rewrite Hc; reflexivity).
  reflexivity.
Qed.

Lemma phase_pipe_keeps_quit (env : CycleEnv) (p : Proc) :
  g_quit (glob (world p)) <> 0 -> g_quit (glob (world (phase_pipe env p))) <> 0.
Proof.
  intros Hq. unfold phase_pipe. destruct (_ && _); [|exact Hq].
  destruct (pipe_line env).
  - apply processCommand_keeps_quit, Hq.
  - unfold closePipe.
    repeat match goal with
      | |- context [if ?b then _ else _] => destruct b
      end; exact Hq.
Qed.

Lemma pass_with_input_keeps_quit (env : CycleEnv) (p1 : Proc) :
  sel_ready env > 0 ->
  g_quit (glob (world (phase_pipe env p1))) <> 0 ->
  g_quit (glob (world (phase_rpm_reconnect env
                         (phase_periodic env
                            (phase_reconnect env (phase_pipe env p1)))))) <> 0.
Proof.
  intros Hr Hq.
  rewrite phase_periodic_idle by exact Hr.
  destruct (phase_rpm_reconnect_frame env (phase_reconnect env (phase_pipe env p1)))
    as (-> & _).
  destruct (phase_reconnect_frame env (phase_pipe env p1)) as (-> & _).
  exact Hq.
Qed.

(** The command [q], from the console or from the pipe, ends the program
    at the next test of the loop condition, whatever else the pass
    processes after it: the run ends in [cleanup], with the motor
    disabled, PWM 0, all lines low and both pipes closed. *)
Theorem quit_command_ends_in_cleanup
    (env env2 : CycleEnv) (rest : list CycleEnv) (p : Proc) (input : string) :
  g_quit (glob (world p)) = 0 ->
  sel_ready env > 0 ->
  clean_line input = "q" ->
  (sel_stdin env = true /\ stdin_line env = Some input)
  \/ ((sel_stdin env = false \/ exists other, stdin_line env = Some other)
      /\ g_pipe_fd (bridge p) <> -1 /\ sel_pipe env = true
      /\ pipe_line env = Some input) ->
  main_loop (env :: env2 :: rest) p = cleanup (fst (main_cycle env p))
  /\ motor_stopped (world (main_loop (env :: env2 :: rest) p))
  /\ pipes_closed (main_loop (env :: env2 :: rest) p).
Proof.
  intros Hq0 Hr Hc Hsrc.
  assert (Hready : (sel_ready env >? 0) = true) by (apply Z.gtb_lt; lia).
  assert (Hquit : exists p', main_cycle env p = (p', Next)
                             /\ g_quit (glob (world p')) <> 0).
  { unfold main_cycle.
    destruct (Z.ltb_spec (sel_ready env) 0); [lia|].
    destruct Hsrc as [[Hs Hl] | (Hs & Hfd & Hp & Hl)].
    - unfold phase_stdin. rewrite Hready, Hs, Hl. cbn [andb].
      eexists. split; [reflexivity|].
      apply pass_with_input_keeps_quit; [exact Hr|].
      apply phase_pipe_keeps_quit. cbn [world on_world].
      rewrite (processCommand_q _ _ _ Hc). discriminate.
    - destruct (phase_stdin env p) as [p1|] eqn:Hin.
      + eexists. split; [reflexivity|].
        apply pass_with_input_keeps_quit; [exact Hr|].
        destruct (phase_stdin_bridge env p p1 Hin) as [Hb _].
        unfold phase_pipe. rewrite Hb, Hready, Hp, Hl.
        destruct (Z.eqb_spec (g_pipe_fd (bridge p)) (-1)); [contradiction|].
        cbn [negb andb world on_world].
        rewrite (processCommand_q _ _ _ Hc). discriminate.
      + exfalso. revert Hin. unfold phase_stdin. rewrite Hready.
        destruct Hs as [-> | [other ->]]; [|destruct (sel_stdin env)];
          cbn; discriminate. }
  destruct Hquit as (p' & Hcyc & Hq').
  assert (Hrun : main_loop (env :: env2 :: rest) p = cleanup p').
  { cbn [main_loop]. rewrite Hq0. cbn [Z.eqb negb]. rewrite Hcyc.
    destruct (Z.eqb_spec (g_quit (glob (world p'))) 0); [contradiction|].
    reflexivity. }
  rewrite Hrun, Hcyc. cbn [fst].
  destruct (cleanup_result p') as (Hm & Hp' & _). auto.
Qed.

(** The loop is left through [cleanup] when [fgets] on the console
    returns NULL and when [select] fails with an error other than EINTR:
    the run ends with the motor disabled, PWM 0, all lines low and both
    pipes closed. *)
Theorem loop_break_ends_in_cleanup
    (env : CycleEnv) (rest : list CycleEnv) (p : Proc) :
  g_quit (glob (world p)) = 0 ->
  (sel_ready env < 0 /\ sel_eintr env = false)
  \/ (sel_ready env > 0 /\ sel_stdin env = true /\ stdin_line env = None) ->
  motor_stopped (world (main_loop (env :: rest) p))
  /\ pipes_closed (main_loop (env :: rest) p)
  /\ g_quit (glob (world (main_loop (env :: rest) p))) = 1.
Proof.
  intros Hq0 Hcase. cbn [main_loop]. rewrite Hq0. cbn [Z.eqb negb].
  assert (Hbr : snd (main_cycle env p) = Break).
  { unfold main_cycle. destruct Hcase as [[Hr He] | (Hr & Hs & Hl)].
    - destruct (Z.ltb_spec (sel_ready env) 0); [|lia]. rewrite He. reflexivity.
    - destruct (Z.ltb_spec (sel_ready env) 0); [lia|].
      unfold phase_stdin.
      replace (sel_ready env >? 0) with true by (symmetry; apply Z.gtb_lt; lia).
      rewrite Hs, Hl. reflexivity. }
  destruct (main_cycle env p) as [p' fl]. cbn [snd] in Hbr. subst fl.
  apply cleanup_result.
Qed.
End LeavingTheLoop.

(* ===================================================================== *)
(** * 20. Further properties of the PID controller *)
(* ===================================================================== *)


Section MorePid.
Context `{Platform}.


(** [pidController] has no effect outside its own state: the stored
    speed, the enabled flag, the direction, the quit flag, the mode and
    the target are the same after every call. *)
Theorem pidController_touches_only_pid_state
    (current_rpm desired_rpm : float) (tick1 tick2 : Z) (g : Globals) :
  g_speed (snd (pidController current_rpm desired_rpm tick1 tick2 g)) = g_speed g
  /\ g_motor_on (snd (pidController current_rpm desired_rpm tick1 tick2 g))
     = g_motor_on g
  /\ g_direction (snd (pidController current_rpm desired_rpm tick1 tick2 g))
     = g_direction g
  /\ g_quit (snd (pidController current_rpm desired_rpm tick1 tick2 g)) = g_quit g
  /\ g_control_mode (snd (pidController current_rpm desired_rpm tick1 tick2 g))
     = g_control_mode g
  /\ g_desired_rpm (snd (pidController current_rpm desired_rpm tick1 tick2 g))
     = g_desired_rpm g.
Proof.
  unfold pidController.
  repeat match goal with
    | |- context [if ?b then _ else _] => destruct b
    end; repeat split.
Qed.

(** With a target of at least 1.0 the stabilization timestamp is stamped
    exactly when the returned speed differs from the stored one: it
    becomes the second tick read in that case and keeps its value
    otherwise. *)
Theorem pid_stamps_exactly_on_change
    (current_rpm desired_rpm : float) (tick1 tick2 : Z) (g : Globals) :
  (desired_rpm <? 1)%float = false ->
  g_last_speed_change_time (snd (pidController current_rpm desired_rpm tick1 tick2 g))
  = if fst (pidController current_rpm desired_rpm tick1 tick2 g) =? g_speed g
    then g_last_speed_change_time g else tick2.
Proof.
  intros Ht. unfold pidController. rewrite Ht.
  destruct (_ && _).
  - cbn [fst snd]. rewrite Z.eqb_refl. reflexivity.
  - cbv zeta. cbn [fst snd g_speed set_pid_last_error set_pid_integral].
    match goal with
    | |- context [negb (?a =? ?b)] => destruct (a =? b)
    end; reflexivity.
Qed.

(** The stabilization gate: with a target of at least 1.0, a call made
    less than 500 ms after the last stamped speed change (no wrap of the
    tick in between) returns the stored speed and leaves every global,
    the accumulator and the last error included, as it was. *)
Theorem pid_gate_holds_everything
    (current_rpm desired_rpm : float) (tick1 tick2 : Z) (g : Globals) :
  (desired_rpm <? 1)%float = false ->
  0 < g_last_speed_change_time g <= tick1 ->
  tick1 < 2 ^ 32 ->
  tick1 - g_last_speed_change_time g < RPM_STABILIZE_DELAY_US ->
  pidController current_rpm desired_rpm tick1 tick2 g = (g_speed g, g).
Proof.
  intros Ht Hlast Hmax Hdelay. unfold pidController. rewrite Ht.
  replace (g_last_speed_change_time g >? 0) with true
    by (symmetry; apply Z.gtb_lt; lia).
  unfold tick_elapsed, u32.
  destruct (Z.ltb_spec tick1 (g_last_speed_change_time g)); [lia|].
  rewrite Z.mod_small by lia.
  replace (_ <? RPM_STABILIZE_DELAY_US) with true
    by (symmetry; apply Z.ltb_lt; lia).
  reflexivity.
Qed.
End MorePid.

(* ===================================================================== *)
(** * 21. Further properties of the RPM estimator *)
(* ===================================================================== *)

Lemma ring_holds_start (buf : list Z) (s0 : Z) :
  length buf = 1000%nat -> ring_holds [] (rpm_start buf s0).
Proof.
  intros Hb. repeat split; try assumption.
  intros k Hk. cbn in Hk. lia.
Qed.

Lemma ring_holds_recordEdge (ts : list Z) (t : Z) (r : RpmState) :
  ring_holds ts r -> ring_holds (ts ++ [t]) (recordEdge t r).
Proof.
  intros (Hlen & Hidx & Hcnt & Hcells).
  set (n := Z.of_nat (length ts)) in *.
  assert (Hn : 0 <= n) by (unfold n; lia).
  assert (Hn' : Z.of_nat (length (ts ++ [t])) = n + 1)
    by (rewrite length_app; cbn; unfold n; lia).
  assert (Hi : 0 <= n mod 1000 < 1000) by (apply Z.mod_pos_bound; lia).
  unfold ring_holds, recordEdge.
  cbn [pulse_times pulse_index pulse_count]. rewrite Hn'.
  split; [rewrite length_insert; exact Hlen|].
  split.
  { rewrite Hidx. unfold ulong. rewrite (Z.mod_small (n mod 1000 + 1)) by lia.
    rewrite Zplus_mod_idemp_l. reflexivity. }
  split.
  { rewrite Hcnt. unfold ulong.
    destruct (Z.ltb_spec (Z.min n 1000) 1000).
    - rewrite Z.mod_small by lia. lia.
    - lia. }
  intros k Hk. rewrite Hidx.
  destruct (Z.eq_dec (Z.of_nat k) n) as [Heq | Hne].
  - rewrite Heq. rewrite list_lookup_insert_eq by lia.
    assert (Hk' : k = length ts) by (unfold n in Heq; lia).
    subst k. rewrite lookup_app_r by lia.
    rewrite Nat.sub_diag. reflexivity.
  - rewrite list_lookup_insert_ne.
    + rewrite Hcells by lia. rewrite lookup_app_l by (unfold n in *; lia).
      reflexivity.
    + intros Hsame. apply Z2Nat.inj in Hsame;
        try (apply Z.mod_pos_bound; lia).
      assert (Hd : 0 < n - Z.of_nat k < 1000) by lia.
      clear - Hsame Hd. Z.div_mod_to_equations. lia.
Qed.

Lemma ring_holds_record_all (ts : list Z) (buf : list Z) (s0 : Z) :
  length buf = 1000%nat -> ring_holds ts (record_all ts (rpm_start buf s0)).
Proof.
  intros Hb. induction ts as [| t ts IH] using rev_ind.
  - apply ring_holds_start, Hb.
  - unfold record_all in *. rewrite fold_left_app. cbn [fold_left].
    apply ring_holds_recordEdge, IH.
Qed.

Lemma logged_edges_of_ring (ts : list Z) (r : RpmState) :
  ring_holds ts r ->
  logged_edges r = drop (length ts - 1000) ts.
Proof.
  intros (Hlen & Hidx & Hcnt & Hcells).
  set (n := Z.of_nat (length ts)) in *.
  assert (Hn : 0 <= n) by (unfold n; lia).
  unfold logged_edges.
  replace (if pulse_count r <? 1000 then pulse_count r else 1000)
    with (Z.min n 1000)
    by (rewrite Hcnt; destruct (Z.ltb_spec (Z.min n 1000) 1000); lia).
  match goal with |- map ?f ?l = _ => change (map f l) with (f <$> l) end.
  apply list_eq. intros i.
  rewrite lookup_drop, list_lookup_fmap.
  destruct (Z_lt_dec (Z.of_nat i) (Z.min n 1000)) as [Hlt | Hge].
  - rewrite lookup_seqZ_lt by exact Hlt. cbn [fmap option_fmap option_map].
    set (k := (length ts - 1000 + i)%nat).
    assert (Hk : Z.of_nat k = n - Z.min n 1000 + Z.of_nat i) by (unfold k, n; lia).
    assert (Hrange : n - 1000 <= Z.of_nat k < n) by lia.
    pose proof (Hcells k Hrange) as Hcell.
    assert (Hsome : is_Some (ts !! k)) by (apply lookup_lt_is_Some; unfold n in *; lia).
    destruct Hsome as [x Hx]. rewrite Hx in *.
    replace (ulong (pulse_index r + 1000 - Z.min n 1000 + (0 + Z.of_nat i)) mod 1000)
      with (Z.of_nat k mod 1000).
    + rewrite Hcell. reflexivity.
    + rewrite Hidx, Hk. unfold ulong.
      assert (Hi : 0 <= n mod 1000 < 1000) by (apply Z.mod_pos_bound; lia).
      rewrite (Z.mod_small (_ + _) (2 ^ 64)) by lia.
      clear. Z.div_mod_to_equations. lia.
  - rewrite lookup_seqZ_ge by lia. cbn.
    symmetry. apply lookup_ge_None_2. unfold n in *. lia.
Qed.

(** The ring keeps the most recent edges: after the edges [ts] were
    recorded in order, starting from the empty log (whatever the array
    held), the entries the counting loop scans are the last 1000 of [ts],
    oldest first -- all of [ts] while there are at most 1000. *)
Theorem ring_keeps_last_1000_edges (ts buf : list Z) (s0 : Z) :
  length buf = 1000%nat ->
  logged_edges (record_all ts (rpm_start buf s0)) = drop (length ts - 1000) ts.
Proof.
  intros Hb. apply logged_edges_of_ring, ring_holds_record_all, Hb.
Qed.

(** The counting loop never counts more than 1000 pulses, nor more than
    were recorded, so the published estimate saturates at the value for
    1000 pulses in the window. *)
Theorem counted_pulses_bounded (r : RpmState) (now : Z) :
  0 <= count_pulses_in_window r now <= 1000
  /\ count_pulses_in_window r now <= Z.max 0 (pulse_count r).
Proof.
  rewrite count_pulses_spec.
  pose proof (filter_length_le (counted now) (logged_edges r)) as Hf.
  assert (Hl : Z.of_nat (length (logged_edges r)) <= Z.min 1000 (Z.max 0 (pulse_count r))).
  { unfold logged_edges. rewrite length_map, length_seqZ.
    destruct (Z.ltb_spec (pulse_count r) 1000); lia. }
  lia.
Qed.


(** While the sensor level never changes no edge is recorded and the
    thread keeps publishing 0, whatever the ticks are. *)
Theorem constant_level_publishes_zero
    (steps : list (Z * Z * Z)) (buf : list Z) (s0 : Z) :
  Forall (fun s => fst (fst s) = s0) steps ->
  g_current_rpm (rpm_run steps (rpm_start buf s0)) = 0%float
  /\ pulse_count (rpm_run steps (rpm_start buf s0)) = 0
  /\ g_pulse_count (rpm_run steps (rpm_start buf s0)) = 0.
Proof.
  intros Hsteps.
  assert (Hinv : forall r,
             last_state r = s0 -> pulse_count r = 0 -> g_current_rpm r = 0%float ->
             g_pulse_count r = 0 ->
             g_current_rpm (rpm_run steps r) = 0%float
             /\ pulse_count (rpm_run steps r) = 0
             /\ g_pulse_count (rpm_run steps r) = 0).
  { induction Hsteps as [| [[lv e] u] rest Hlv _ IH]; intros r Hl Hc Hr Hg.
    - cbn. auto.
    - cbn [rpm_run fold_left fst snd] in *. subst lv.
      apply IH.
      + apply (rpmThread_publishes_zero_without_edges s0 e u r Hl Hc Hr).
      + apply (rpmThread_publishes_zero_without_edges s0 e u r Hl Hc Hr).
      + apply (rpmThread_publishes_zero_without_edges s0 e u r Hl Hc Hr).
      + unfold rpmThread_step. rewrite Hl, Z.eqb_refl, andb_false_r.
        unfold rpmUpdate. cbn [last_update pulse_times pulse_count pulse_index
                               g_pulse_count g_current_rpm last_state].
        destruct (_ >=? _); exact Hg. }
  apply Hinv; reflexivity.
Qed.

(* ===================================================================== *)
(** * 22. Further properties of the bridge and of the periodic work *)
(* ===================================================================== *)

Section PeriodicWork.
Context `{Platform}.

Lemma status_output_frame (rpm : float) (ok : bool) (q : Proc) :
  glob (world (print_status rpm (sendRPM rpm ok q))) = glob (world q)
  /\ pins (world (print_status rpm (sendRPM rpm ok q))) = pins (world q).
Proof.
  unfold print_status, sendRPM, closeRPMPipe.
  repeat match goal with
    | |- context [if ?b then _ else _] => destruct b
    end; split; reflexivity.
Qed.

(** The controller runs only in automatic mode with the motor enabled:
    in manual mode, or with the motor disabled, the periodic work of a
    pass changes no global and no output line, whatever the estimate, the
    ticks and the result of the status write are. *)
Theorem periodic_work_changes_nothing_outside_auto (env : CycleEnv) (p : Proc) :
  g_control_mode (glob (world p)) <> 1 \/ g_motor_on (glob (world p)) = 0 ->
  glob (world (phase_periodic env p)) = glob (world p)
  /\ pins (world (phase_periodic env p)) = pins (world p).
Proof.
  intros Hout. unfold phase_periodic.
  destruct (sel_ready env =? 0); [|split; reflexivity].
  cbv zeta.
  replace ((g_control_mode (glob (world p)) =? 1)
           && negb (g_motor_on (glob (world p)) =? 0)) with false.
  - apply status_output_frame.
  - symmetry. destruct Hout as [Hm | Hoff].
    + apply andb_false_intro1. apply Z.eqb_neq. exact Hm.
    + apply andb_false_intro2. rewrite Hoff. reflexivity.
Qed.

End PeriodicWork.

Lemma reconnect_step (env : CycleEnv) (p : Proc) :
  open_cmd_fd env = -1 ->
  g_pipe_fd (bridge p) = -1 ->
  0 <= pipe_reconnect_timer (bridge p) < 10 ->
  g_pipe_fd (bridge (phase_reconnect env p)) = -1
  /\ pipe_reconnect_timer (bridge (phase_reconnect env p))
     = (pipe_reconnect_timer (bridge p) + 1) mod 10
  /\ exists evs,
       trace (world (phase_reconnect env p)) = (trace (world p) ++ evs)%list
       /\ count_reopens evs = (pipe_reconnect_timer (bridge p) + 1) / 10.
Proof.
  intros Hfail Hfd Ht. unfold phase_reconnect. rewrite Hfd. cbn [Z.eqb].
  cbv zeta. rewrite int32_small by lia.
  destruct (Z.geb_spec (pipe_reconnect_timer (bridge p) + 1) 10) as [Hge | Hlt].
  - assert (Ht9 : pipe_reconnect_timer (bridge p) = 9) by lia.
    unfold openPipe. rewrite Hfail. cbn. rewrite Ht9. cbn.
    repeat split. eexists. split; reflexivity.
  - cbn. rewrite Z.mod_small by lia. rewrite Z.div_small by lia.
    repeat split. exists []. rewrite app_nil_r. split; reflexivity.
Qed.

Lemma count_reopens_quiet (evs : list event) :
  existsb is_reopen evs = false -> count_reopens evs = 0.
Proof.
  unfold count_reopens. induction evs as [| e evs IH]; [reflexivity|].
  cbn. intros Hq. apply orb_false_elim in Hq as [He Hr].
  rewrite He. apply IH, Hr.
Qed.

Lemma count_reopens_app (a b : list event) :
  count_reopens (a ++ b) = count_reopens a + count_reopens b.
Proof.
  unfold count_reopens. rewrite List.filter_app, length_app. lia.
Qed.

Lemma quiet_trans (a b c : World) : quiet a b -> quiet b c -> quiet a c.
Proof.
  intros (e1 & H1 & Q1) (e2 & H2 & Q2). exists (e1 ++ e2)%list. split.
  - rewrite H2, H1, app_assoc. reflexivity.
  - rewrite existsb_app, Q1, Q2. reflexivity.
Qed.

Section Cadence.
Context `{Platform}.

Lemma phase_periodic_cmd_pipe (env : CycleEnv) (p : Proc) :
  g_pipe_fd (bridge (phase_periodic env p)) = g_pipe_fd (bridge p)
  /\ pipe_reconnect_timer (bridge (phase_periodic env p))
     = pipe_reconnect_timer (bridge p)
  /\ quiet (world p) (world (phase_periodic env p)).
Proof.
  unfold phase_periodic.
  destruct (sel_ready env =? 0); [|repeat split; apply quiet_refl].
  cbv zeta.
  set (q := if _ && _ then _ else p).
  assert (Hq : bridge q = bridge p /\ quiet (world p) (world q)).
  { unfold q. destruct (_ && _); [|split; [reflexivity | apply quiet_refl]].
    destruct (pidController _ _ _ _ _) as [v g'].
    destruct (negb _); (split; [reflexivity|]); cbn [world on_world].
    - apply quiet_setSpeed, quiet_with_glob, quiet_refl.
    - apply quiet_with_glob, quiet_refl. }
  destruct Hq as [Hb Hquiet]. clearbody q.
  assert (Hout : forall rpm ok,
             g_pipe_fd (bridge (print_status rpm (sendRPM rpm ok q))) = g_pipe_fd (bridge q)
             /\ pipe_reconnect_timer (bridge (print_status rpm (sendRPM rpm ok q)))
                = pipe_reconnect_timer (bridge q)
             /\ quiet (world q) (world (print_status rpm (sendRPM rpm ok q)))).
  { intros rpm ok. unfold print_status, sendRPM, closeRPMPipe.
    repeat match goal with
      | |- context [if ?b then _ else _] => destruct b
      end; cbn [world on_world bridge g_pipe_fd pipe_reconnect_timer];
      repeat split;
      repeat first [ apply quiet_refl | apply quiet_printf
                   | apply quiet_emit; [reflexivity|] ]. }
  destruct (Hout (rpm_periodic env) (fputs_ok env)) as (-> & -> & Hq2).
  rewrite Hb. repeat split. eapply quiet_trans; eassumption.
Qed.

Lemma phase_rpm_reconnect_cmd_pipe (env : CycleEnv) (p : Proc) :
  g_pipe_fd (bridge (phase_rpm_reconnect env p)) = g_pipe_fd (bridge p)
  /\ pipe_reconnect_timer (bridge (phase_rpm_reconnect env p))
     = pipe_reconnect_timer (bridge p)
  /\ quiet (world p) (world (phase_rpm_reconnect env p)).
Proof.
  unfold phase_rpm_reconnect, openRPMPipe.
  repeat match goal with
    | |- context [if ?b then _ else _] => destruct b
    end; cbn [world on_world bridge g_pipe_fd pipe_reconnect_timer];
    repeat split;
    repeat first [ apply quiet_refl | apply quiet_printf
                 | apply quiet_emit; [reflexivity|] ].
Qed.

(** One complete pass with the command pipe closed and [open] failing. *)
Lemma closed_pass (env : CycleEnv) (p : Proc) :
  pass_completes env = true ->
  open_cmd_fd env = -1 ->
  g_pipe_fd (bridge p) = -1 ->
  0 <= pipe_reconnect_timer (bridge p) < 10 ->
  g_pipe_fd (bridge (fst (main_cycle env p))) = -1
  /\ pipe_reconnect_timer (bridge (fst (main_cycle env p)))
     = (pipe_reconnect_timer (bridge p) + 1) mod 10
  /\ exists evs,
       trace (world (fst (main_cycle env p))) = (trace (world p) ++ evs)%list
       /\ count_reopens evs = (pipe_reconnect_timer (bridge p) + 1) / 10.
Proof.
  intros Hc Hfail Hfd Ht. unfold pass_completes in Hc.
  apply andb_prop in Hc as [Hr Hin]. apply Z.leb_le in Hr.
  unfold main_cycle. destruct (Z.ltb_spec (sel_ready env) 0); [lia|].
  destruct (phase_stdin env p) as [p1|] eqn:Hs.
  - cbn [fst].
    destruct (phase_stdin_bridge env p p1 Hs) as [Hb (e1 & Ht1 & Hq1)].
    assert (Hpipe : phase_pipe env p1 = p1).
    { unfold phase_pipe. rewrite Hb, Hfd. reflexivity. }
    rewrite Hpipe.
    assert (Hfd1 : g_pipe_fd (bridge p1) = -1) by (rewrite Hb; exact Hfd).
    assert (Htm1 : 0 <= pipe_reconnect_timer (bridge p1) < 10) by (rewrite Hb; exact Ht).
    destruct (reconnect_step env p1 Hfail Hfd1 Htm1) as (Hf2 & Ht2 & e2 & Htr2 & Hc2).
    set (p2 := phase_reconnect env p1) in *.
    destruct (phase_periodic_cmd_pipe env p2) as (Hf3 & Ht3 & e3 & Htr3 & Hq3).
    set (p3 := phase_periodic env p2) in *.
    destruct (phase_rpm_reconnect_cmd_pipe env p3) as (Hf4 & Ht4 & e4 & Htr4 & Hq4).
    rewrite Hf4, Hf3, Hf2, Ht4, Ht3, Ht2, Hb. repeat split.
    exists (e1 ++ e2 ++ e3 ++ e4)%list. split.
    + rewrite Htr4, Htr3, Htr2, Ht1, <- !app_assoc. reflexivity.
    + rewrite !count_reopens_app, Hc2, Hb.
      rewrite (count_reopens_quiet e1 Hq1), (count_reopens_quiet e3 Hq3),
              (count_reopens_quiet e4 Hq4). lia.
  - exfalso. revert Hs Hin. unfold phase_stdin.
    destruct ((sel_ready env >? 0) && sel_stdin env); [|discriminate].
    destruct (stdin_line env); discriminate.
Qed.

(** Reconnection cadence: while the command pipe is closed and [open]
    keeps failing, the loop tries to open it exactly once every ten
    passes, whatever else the passes do.  After [n] complete passes
    starting with the counter at [t0], the number of attempts is
    [(t0 + n) / 10] and the counter is [(t0 + n) mod 10]. *)
Theorem reconnect_attempt_every_tenth_pass (envs : list CycleEnv) (p : Proc) :
  Forall (fun env => pass_completes env = true /\ open_cmd_fd env = -1) envs ->
  g_pipe_fd (bridge p) = -1 ->
  0 <= pipe_reconnect_timer (bridge p) < 10 ->
  count_reopens (events_since p (run_passes envs p))
  = (pipe_reconnect_timer (bridge p) + Z.of_nat (length envs)) / 10
  /\ pipe_reconnect_timer (bridge (run_passes envs p))
     = (pipe_reconnect_timer (bridge p) + Z.of_nat (length envs)) mod 10
  /\ g_pipe_fd (bridge (run_passes envs p)) = -1.
Proof.
  intros Hall Hfd Ht.
  set (t0 := pipe_reconnect_timer (bridge p)) in *.
  assert (Hgen : exists evs,
             trace (world (run_passes envs p)) = (trace (world p) ++ evs)%list
             /\ count_reopens evs = (t0 + Z.of_nat (length envs)) / 10
             /\ pipe_reconnect_timer (bridge (run_passes envs p))
                = (t0 + Z.of_nat (length envs)) mod 10
             /\ g_pipe_fd (bridge (run_passes envs p)) = -1).
  { induction envs as [| env envs IH] using rev_ind.
    - exists []. cbn. rewrite app_nil_r, Z.add_0_r.
      rewrite Z.div_small, Z.mod_small by lia. repeat split. exact Hfd.
    - apply Forall_app in Hall as [Hinit Hlast].
      apply Forall_inv in Hlast as [Hcomp Hfail].
      destruct (IH Hinit) as (evs & Htr & Hcnt & Htm & Hfd').
      unfold run_passes in *. rewrite fold_left_app. cbn [fold_left].
      set (q := fold_left _ envs p) in *.
      assert (Hq : 0 <= pipe_reconnect_timer (bridge q) < 10)
        by (rewrite Htm; apply Z.mod_pos_bound; lia).
      destruct (closed_pass env q Hcomp Hfail Hfd' Hq)
        as (Hf2 & Ht2 & evs2 & Htr2 & Hc2).
      exists (evs ++ evs2)%list. rewrite length_app. cbn [length].
      repeat split.
      + rewrite Htr2, Htr, app_assoc. reflexivity.
      + rewrite count_reopens_app, Hcnt, Hc2, Htm.
        clear. Z.div_mod_to_equations. lia.
      + rewrite Ht2, Htm. clear. Z.div_mod_to_equations. lia.
      + exact Hf2. }
  destruct Hgen as (evs & Htr & Hcnt & Htm & Hfd').
  unfold events_since. rewrite Htr, drop_app_length. auto.
Qed.
End Cadence.

(* ===================================================================== *)
(** * 23. Properties of the BLE server and of the two programs together *)
(* ===================================================================== *)

Lemma ble_pipe_lines_app (a b : list Ble.event) :
  Ble.pipe_lines (a ++ b) = (Ble.pipe_lines a ++ Ble.pipe_lines b)%list.
Proof.
  induction a as [| e a IH]; [reflexivity|].
  destruct e; cbn; rewrite ?IH; try reflexivity.
  destruct ok; cbn; rewrite ?IH; reflexivity.
Qed.

Lemma ble_new_events_app (b b' : Ble.State) (evs : list Ble.event) :
  Ble.trace b' = (Ble.trace b ++ evs)%list -> Ble.new_events b b' = evs.
Proof. intros Ht. unfold Ble.new_events. rewrite Ht. apply drop_app_length. Qed.

(** ** The server with its pipe open and every write succeeding *)

Lemma write_to_pipe_ok (command : string) (b : Ble.State) :
  Ble.pipe_out b = true -> Ble.fprintf_results b = [] ->
  Ble.pipe_out (Ble.write_to_pipe command b) = true
  /\ Ble.fprintf_results (Ble.write_to_pipe command b) = []
  /\ exists evs,
       Ble.trace (Ble.write_to_pipe command b) = (Ble.trace b ++ evs)%list
       /\ Ble.pipe_lines evs = [command].
Proof.
  intros Hp Hr. unfold Ble.write_to_pipe. rewrite Hp, Hr. cbn.
  repeat split. eexists. split; [rewrite <- !app_assoc; reflexivity | reflexivity].
Qed.

Lemma beep_loop_ok (n : nat) (i count : Z) (b : Ble.State) :
  Ble.pipe_out b = true -> Ble.fprintf_results b = [] ->
  Ble.pipe_out (Ble.beep_loop n i count b) = true
  /\ Ble.fprintf_results (Ble.beep_loop n i count b) = []
  /\ exists evs,
       Ble.trace (Ble.beep_loop n i count b) = (Ble.trace b ++ evs)%list
       /\ Ble.pipe_lines evs = concat (replicate n [line "on"; line "off"]).
Proof.
  revert i b. induction n as [| n IH]; intros i b Hp Hr.
  - cbn. repeat split; try assumption. exists []. rewrite app_nil_r. auto.
  - cbn [Ble.beep_loop].
    destruct (write_to_pipe_ok (line "on") b Hp Hr) as (Hp1 & Hr1 & e1 & Ht1 & Hl1).
    set (b1 := Ble.write_to_pipe (line "on") b) in *.
    set (b2 := Ble.emit (Ble.Usleep 150000) b1).
    destruct (write_to_pipe_ok (line "off") b2 Hp1 Hr1) as (Hp3 & Hr3 & e3 & Ht3 & Hl3).
    set (b3 := Ble.write_to_pipe (line "off") b2) in *.
    set (b4 := if i <? int32 (count - 1) then Ble.emit (Ble.Usleep 100000) b3 else b3).
    assert (H4 : Ble.pipe_out b4 = true /\ Ble.fprintf_results b4 = []
                 /\ exists e4, Ble.trace b4 = (Ble.trace b3 ++ e4)%list
                               /\ Ble.pipe_lines e4 = []).
    { unfold b4. destruct (i <? int32 (count - 1)).
      - repeat split; try assumption. eexists. split; reflexivity.
      - repeat split; try assumption. exists []. rewrite app_nil_r. auto. }
    destruct H4 as (Hp4 & Hr4 & e4 & Ht4 & Hl4).
    destruct (IH (int32 (i + 1)) b4 Hp4 Hr4) as (Hp5 & Hr5 & e5 & Ht5 & Hl5).
    repeat split; try assumption.
    exists (e1 ++ [Ble.Usleep 150000] ++ e3 ++ e4 ++ e5)%list. split.
    + rewrite Ht5, Ht4, Ht3. unfold b2. cbn [Ble.emit Ble.trace].
      rewrite Ht1, <- !app_assoc. reflexivity.
    + rewrite !ble_pipe_lines_app, Hl1, Hl3, Hl4, Hl5. reflexivity.
Qed.

Lemma beep_thread_ok (count : Z) (b : Ble.State) :
  Ble.pipe_out b = true -> Ble.fprintf_results b = [] ->
  Ble.pipe_out (Ble.beep_thread count b) = true
  /\ Ble.fprintf_results (Ble.beep_thread count b) = []
  /\ exists evs,
       Ble.trace (Ble.beep_thread count b) = (Ble.trace b ++ evs)%list
       /\ Ble.pipe_lines evs
          = line "s 50" :: concat (replicate (Z.to_nat count) [line "on"; line "off"]).
Proof.
  intros Hp Hr. unfold Ble.beep_thread. rewrite Hp. cbn [negb]. cbv zeta.
  destruct (write_to_pipe_ok (line "s 50") b Hp Hr) as (Hp1 & Hr1 & e1 & Ht1 & Hl1).
  set (b1 := Ble.write_to_pipe (line "s 50") b) in *.
  set (b2 := Ble.emit (Ble.Usleep 50000) b1).
  destruct (beep_loop_ok (Z.to_nat count) 0 count b2 Hp1 Hr1)
    as (Hp3 & Hr3 & e3 & Ht3 & Hl3).
  repeat split; try assumption.
  exists (e1 ++ [Ble.Usleep 50000] ++ e3
          ++ [Ble.Printf "Beeped %d times" [AInt count]])%list. split.
  - cbn [Ble.printf Ble.emit Ble.trace]. rewrite Ht3. unfold b2.
    cbn [Ble.emit Ble.trace]. rewrite Ht1, <- !app_assoc. reflexivity.
  - rewrite !ble_pipe_lines_app, Hl1, Hl3. cbn. rewrite app_nil_r. reflexivity.
Qed.



Section TwoPrograms.
Context `{Platform}.






(** The first beep is silent from the brake state.  The beep thread
    writes [s 50], [on], [off], ...; a controller in manual mode whose
    direction lines are both low -- as after start-up or after [off] --
    is enabled by [s 50], which drives the PWM and the LED only, so the
    [on] that follows finds the flag set and returns without setting a
    direction line: up to the first [off] both lines stay low while the
    PWM runs at 50 percent. *)
Theorem first_beep_from_brake_is_silent
    (rpm : float) (count : Z) (b : Ble.State) (w : World) :
  Ble.pipe_out b = true ->
  Ble.fprintf_results b = [] ->
  1 <= count ->
  atoi "50" = 50 ->
  g_control_mode (glob w) <> 1 ->
  in1 (pins w) = 0 ->
  in2 (pins w) = 0 ->
  Ble.pipe_lines (Ble.new_events b (Ble.beep_thread count b))
  = (line "s 50" :: line "on" :: line "off"
     :: concat (replicate (Z.to_nat (count - 1)) [line "on"; line "off"]))%list
  /\ Forall (fun p => in1 p = 0 /\ in2 p = 0)
       (pin_states (new_events w (feed rpm [line "s 50"; line "on"] w)) (pins w))
  /\ g_motor_on (glob (feed rpm [line "s 50"; line "on"] w)) = 1
  /\ pwm_enable (pins (feed rpm [line "s 50"; line "on"] w)) = 127.
Proof.
  intros Hp Hr Hc Ha Hm H1 H2. split.
  - destruct (beep_thread_ok count b Hp Hr) as (_ & _ & e & Ht & Hl).
    rewrite (ble_new_events_app b _ e Ht), Hl.
    replace (Z.to_nat count) with (S (Z.to_nat (count - 1))) by lia.
    reflexivity.
  - assert (E : feed rpm [line "s 50"; line "on"] w
                = printf "-> Motor already ON" []
                    (printf "-> Command: [%s]" [AStr "on"]
                       (setSpeed 50 (printf "-> Command: [%s]" [AStr "s 50"] w)))).
    { change (feed rpm [line "s 50"; line "on"] w)
        with (motorOn
                (printf "-> Command: [%s]" [AStr "on"]
                   (if g_control_mode (glob w) =? 1
                    then printf "   Use 'auto <rpm>' to change target, or 'manual' to switch modes." []
                           (printf "-> ERROR: In AUTOMATIC mode. Manual speed control disabled." []
                              (printf "-> Command: [%s]" [AStr "s 50"] w))
                    else setSpeed (atoi "50")
                           (printf "-> Command: [%s]" [AStr "s 50"] w)))).
      destruct (Z.eqb_spec (g_control_mode (glob w)) 1); [contradiction|].
      rewrite Ha. apply motorOn_when_on. discriminate. }
    rewrite E.
    rewrite (new_events_app w _
               [Printf "-> Command: [%s]" [AStr "s 50"];
                Printf "-> Speed: %d%%" [AInt 50];
                GpioPWM MOTOR_ENABLE_PIN 127; GpioWrite LED_PIN 1;
                Printf "-> Command: [%s]" [AStr "on"];
                Printf "-> Motor already ON" []])
      by (cbn; rewrite <- !app_assoc; reflexivity).
    split; [|split; reflexivity].
    cbn. repeat constructor; assumption.
Qed.
End TwoPrograms.

(** ** The server after a failed write *)

Lemma write_to_pipe_closed (command : string) (b : Ble.State) :
  Ble.pipe_out b = false ->
  Ble.write_to_pipe command b = Ble.printf "[BLE] ERROR: Pipe not open" [] b.
Proof. intros Hp. unfold Ble.write_to_pipe. rewrite Hp. reflexivity. Qed.

Lemma beep_thread_closed (count : Z) (b : Ble.State) :
  Ble.pipe_out b = false ->
  Ble.beep_thread count b = Ble.printf "Cannot beep: pipe not open" [] b.
Proof. intros Hp. unfold Ble.beep_thread. rewrite Hp. reflexivity. Qed.

Lemma ble_step_closed (i : Ble.input) (b : Ble.State) :
  Ble.pipe_out b = false ->
  Ble.pipe_out (Ble.step i b) = false
  /\ exists evs, Ble.trace (Ble.step i b) = (Ble.trace b ++ evs)%list
                 /\ Ble.pipe_lines evs = [].
Proof.
  intros Hp. destruct i as [path method value | iface conn | env | count];
    cbn [Ble.step].
  - unfold Ble.handle_method_call. cbv zeta.
    rewrite write_to_pipe_closed by exact Hp.
    repeat match goal with
      | |- context [if ?c then _ else _] => destruct c
      end; cbn; (split; [exact Hp|]);
      eexists; (split; [rewrite <- ?app_assoc; reflexivity | reflexivity]).
  - unfold Ble.on_properties_changed. cbv zeta.
    destruct (negb (String.eqb iface Ble.DEVICE_IFACE));
      [split; [exact Hp|]; exists []; rewrite app_nil_r; split; reflexivity|].
    destruct conn as [c|];
      [|split; [exact Hp|]; exists []; rewrite app_nil_r; split; reflexivity].
    destruct (negb (Bool.eqb c (Ble.last_connected_state b)));
      [|split; [exact Hp|]; exists []; rewrite app_nil_r; split; reflexivity].
    destruct c.
    + cbn. split; [exact Hp|].
      eexists. split; [rewrite <- ?app_assoc; reflexivity | reflexivity].
    + rewrite write_to_pipe_closed by exact Hp.
      cbn. split; [exact Hp|].
      eexists. split; [rewrite <- ?app_assoc; reflexivity | reflexivity].
  - unfold Ble.read_rpm_from_pipe, Ble.poll_rpm_data.
    repeat match goal with
      | |- context [if ?c then _ else _] => destruct c
      | |- context [match ?c with Some _ => _ | None => _ end] => destruct c
      end; cbn; (split; [exact Hp|]);
      first [ exists []; rewrite app_nil_r; split; reflexivity
            | eexists; (split; [rewrite <- ?app_assoc; reflexivity | reflexivity]) ].
  - rewrite beep_thread_closed by exact Hp. cbn. split; [exact Hp|].
    eexists. split; reflexivity.
Qed.

Lemma ble_run_closed (inputs : list Ble.input) (b : Ble.State) :
  Ble.pipe_out b = false ->
  Ble.pipe_out (Ble.run inputs b) = false
  /\ exists evs, Ble.trace (Ble.run inputs b) = (Ble.trace b ++ evs)%list
                 /\ Ble.pipe_lines evs = [].
Proof.
  revert b. induction inputs as [| i inputs IH]; intros b Hp.
  - split; [exact Hp|]. exists []. rewrite app_nil_r. split; reflexivity.
  - cbn [Ble.run fold_left].
    destruct (ble_step_closed i b Hp) as (Hp1 & e1 & Ht1 & Hl1).
    destruct (IH (Ble.step i b) Hp1) as (Hp2 & e2 & Ht2 & Hl2).
    split; [exact Hp2|].
    exists (e1 ++ e2)%list. unfold Ble.run in Ht2. split.
    + rewrite Ht2, Ht1, app_assoc. reflexivity.
    + rewrite ble_pipe_lines_app, Hl1, Hl2. reflexivity.
Qed.

(** One failed write silences the server for good: the failure closes
    the command pipe, nothing in the server reopens it, and no later
    method call, connection change, timer run or beep thread puts
    anything on the pipe -- the [off] sent on disconnect included. *)
Theorem failed_write_silences_server
    (command : string) (inputs : list Ble.input) (results : list bool)
    (b : Ble.State) :
  Ble.pipe_out b = true ->
  Ble.fprintf_results b = false :: results ->
  Ble.pipe_out (Ble.run inputs (Ble.write_to_pipe command b)) = false
  /\ Ble.pipe_lines
       (Ble.new_events b (Ble.run inputs (Ble.write_to_pipe command b))) = [].
Proof.
  intros Hp Hr.
  assert (Hw : Ble.pipe_out (Ble.write_to_pipe command b) = false
               /\ exists evs,
                    Ble.trace (Ble.write_to_pipe command b) = (Ble.trace b ++ evs)%list
                    /\ Ble.pipe_lines evs = []).
  { unfold Ble.write_to_pipe. rewrite Hp, Hr. cbn. split; [reflexivity|].
    eexists. split; [rewrite <- !app_assoc; reflexivity | reflexivity]. }
  destruct Hw as (Hp1 & e1 & Ht1 & Hl1).
  destruct (ble_run_closed inputs _ Hp1) as (Hp2 & e2 & Ht2 & Hl2).
  split; [exact Hp2|].
  rewrite (ble_new_events_app b _ (e1 ++ e2))
    by (rewrite Ht2, Ht1, app_assoc; reflexivity).
  rewrite ble_pipe_lines_app, Hl1, Hl2. reflexivity.
Qed.

(** Of all method calls only [WriteValue] on the command characteristic
    reaches the pipe, and it forwards the written bytes up to their first
    NUL unchanged; with the pipe closed or the write failing nothing is
    forwarded. *)
Theorem only_write_value_reaches_pipe
    (object_path method_name value : string) (b : Ble.State) :
  Ble.pipe_lines
    (Ble.new_events b (Ble.handle_method_call object_path method_name value b))
  = if String.eqb object_path Ble.COMMAND_CHAR_PATH
       && String.eqb method_name "WriteValue"
       && Ble.pipe_out b
       && match Ble.fprintf_results b with [] => true | r :: _ => r end
    then [Ble.c_string value] else [].
Proof.
  unfold Ble.handle_method_call.
  destruct (String.eqb object_path Ble.COMMAND_CHAR_PATH
            && String.eqb method_name "WriteValue").
  - cbv zeta. unfold Ble.write_to_pipe.
    cbn [Ble.printf Ble.emit Ble.pipe_out Ble.fprintf_results].
    destruct (Ble.pipe_out b); cbn [negb andb].
    + destruct (Ble.fprintf_results b) as [| [] rest]; cbn [negb tl];
        (erewrite ble_new_events_app;
         [| cbn; rewrite <- ?app_assoc; reflexivity]); reflexivity.
    + erewrite ble_new_events_app; [| cbn; rewrite <- ?app_assoc; reflexivity].
      reflexivity.
  - cbn [andb].
    repeat match goal with
      | |- context [if ?c then _ else _] => destruct c
      end;
      (erewrite ble_new_events_app; [| cbn; rewrite <- ?app_assoc; reflexivity]);
      reflexivity.
Qed.

Lemma write_to_pipe_last_connected (command : string) (b : Ble.State) :
  Ble.last_connected_state (Ble.write_to_pipe command b)
  = Ble.last_connected_state b.
Proof.
  unfold Ble.write_to_pipe.
  repeat match goal with
    | |- context [if ?c then _ else _] => destruct c
    end; reflexivity.
Qed.

(** Connection changes are edge-triggered: a PropertiesChanged signal
    that repeats the state the server already holds does nothing, so
    handling the same signal twice is the same as handling it once. *)
Theorem connection_signal_is_edge_triggered
    (iface : string) (connected : option bool) (b : Ble.State) :
  Ble.on_properties_changed iface connected
    (Ble.on_properties_changed iface connected b)
  = Ble.on_properties_changed iface connected b.
Proof.
  unfold Ble.on_properties_changed at 1.
  destruct (negb (String.eqb iface Ble.DEVICE_IFACE)) eqn:Hi; [reflexivity|].
  destruct connected as [c|]; [|reflexivity].
  replace (Ble.last_connected_state
             (Ble.on_properties_changed iface (Some c) b)) with c.
  - rewrite eqb_reflx. reflexivity.
  - unfold Ble.on_properties_changed. rewrite Hi.
    destruct (Bool.eqb c (Ble.last_connected_state b)) eqn:Hc; cbn [negb].
    + apply eqb_prop in Hc. exact Hc.
    + cbv zeta. destruct c;
        cbn [Ble.send_beeps Ble.printf Ble.emit Ble.last_connected_state];
        rewrite ?write_to_pipe_last_connected; reflexivity.
Qed.

(** Notifications follow the subscription: after [StartNotify] the
    [Notifying] property of the status characteristic reads true and
    after [StopNotify] false; and while notifications are stopped a run
    of the RPM timer does nothing -- it does not open the status pipe,
    read from it or notify, whatever the pipe holds. *)
Theorem notifications_follow_subscription
    (value : string) (env : Ble.PollEnv) (b : Ble.State) :
  Ble.handle_get_property Ble.STATUS_CHAR_PATH "Notifying"
    (Ble.handle_method_call Ble.STATUS_CHAR_PATH "StartNotify" value b)
  = Some (Ble.VBoolean true)
  /\ Ble.handle_get_property Ble.STATUS_CHAR_PATH "Notifying"
       (Ble.handle_method_call Ble.STATUS_CHAR_PATH "StopNotify" value b)
     = Some (Ble.VBoolean false)
  /\ Ble.read_rpm_from_pipe env
       (Ble.handle_method_call Ble.STATUS_CHAR_PATH "StopNotify" value b)
     = Ble.handle_method_call Ble.STATUS_CHAR_PATH "StopNotify" value b.
Proof. repeat split. Qed.

(** A status line is forwarded without its prefix: while notifications
    are on and the status pipe is open, a line [rpm:] followed by a text
    free of NUL and newline and by a newline is sent to the phone as that
    text and a newline, and nothing else changes; a line that does not
    start with [rpm:] is dropped. *)
Theorem status_line_forwarded_without_prefix
    (v rest : string) (env : Ble.PollEnv) (b : Ble.State) :
  Ble.status_char_notifying b = true ->
  Ble.rpm_pipe_in b = true ->
  Ble.select_ready env > 0 ->
  has_char "010"%char v = false ->
  has_char "000"%char v = false ->
  (Ble.fgets_line env = Some ("rpm:" ++ v ++ String "010"%char rest) ->
   Ble.read_rpm_from_pipe env b
   = Ble.emit (Ble.Notify (v ++ String "010"%char EmptyString)) b)
  /\ (forall other,
        Ble.fgets_line env = Some other ->
        strncmp_eq (cut_at "010"%char (Ble.c_string other)) "rpm:" 4 = false ->
        Ble.read_rpm_from_pipe env b = b).
Proof.
  intros Hn Hp Hs Hlf Hnul.
  assert (Hsel : (Ble.select_ready env >? 0) = true) by (apply Z.gtb_lt; lia).
  split.
  - intros Hl. unfold Ble.read_rpm_from_pipe, Ble.poll_rpm_data.
    rewrite Hn, Hp, Hsel, Hl. cbn [negb].
    unfold Ble.rpm_payload, Ble.c_string.
    assert (Hcut : cut_at "010"%char
                     (cut_at "000"%char ("rpm:" ++ v ++ String "010"%char rest))
                   = "rpm:" ++ v).
    { change ("rpm:" ++ v ++ String "010"%char rest)
        with (String "r" (String "p" (String "m" (String ":"
                (v ++ String "010"%char rest))))).
      cbn [cut_at]. 
      change (Ascii.eqb "r" "000") with false.
      change (Ascii.eqb "p" "000") with false.
      change (Ascii.eqb "m" "000") with false.
      change (Ascii.eqb ":" "000") with false.
      cbv iota.
      rewrite (cut_at_app_free "000"%char v _ Hnul).
      cbn [cut_at].
      change (Ascii.eqb "010" "000") with false. cbv iota.
      cbn [cut_at].
      change (Ascii.eqb "r" "010") with false.
      change (Ascii.eqb "p" "010") with false.
      change (Ascii.eqb "m" "010") with false.
      change (Ascii.eqb ":" "010") with false.
      cbv iota.
      rewrite (cut_at_stops "010"%char v _ Hlf). reflexivity. }
    cbv zeta. rewrite Hcut.
    change (strncmp_eq ("rpm:" ++ v) "rpm:" 4) with true.
    change (string_from 4 ("rpm:" ++ v)) with v.
    reflexivity.
  - intros other Hl Hno. unfold Ble.read_rpm_from_pipe, Ble.poll_rpm_data.
    rewrite Hn, Hp, Hsel, Hl. cbn [negb].
    unfold Ble.rpm_payload. cbv zeta. rewrite Hno. reflexivity.
Qed.

(** Shutdown after a failed write: when the pipe is open and the [off]
    written by [cleanup_and_exit] fails, [write_to_pipe] has already
    closed the stream and cleared the pointer, and [cleanup_and_exit]
    then calls [fclose] on the NULL pointer; no [off] reaches the
    controller. *)
Theorem cleanup_after_failed_write_closes_null
    (results : list bool) (b : Ble.State) :
  Ble.pipe_out b = true ->
  Ble.fprintf_results b = false :: results ->
  In Ble.FcloseNull (Ble.new_events b (Ble.cleanup_and_exit b))
  /\ Ble.pipe_lines (Ble.new_events b (Ble.cleanup_and_exit b)) = []
  /\ Ble.pipe_out (Ble.cleanup_and_exit b) = false.
Proof.
  intros Hp Hr. unfold Ble.cleanup_and_exit. cbv zeta.
  cbn [Ble.printf Ble.emit Ble.pipe_out]. rewrite Hp.
  unfold Ble.write_to_pipe.
  cbn [Ble.printf Ble.emit Ble.pipe_out Ble.fprintf_results]. rewrite Hp, Hr.
  cbn [negb tl Ble.pipe_out Ble.rpm_pipe_in Ble.trace Ble.printf Ble.emit].
  destruct (Ble.rpm_pipe_in b);
    (erewrite ble_new_events_app; [| cbn; rewrite <- ?app_assoc; reflexivity]);
    cbn; repeat split; tauto.
Qed.

(* ===================================================================== *)
(** * 24. The further properties on concrete inputs *)
(* ===================================================================== *)

Lemma hw_ok_manual_at_40 : hw_ok manual_at_40.
Proof.
  split; [split; [cbn; lia | right; cbn; repeat split; lia]
         | right; left; split; reflexivity].
Defined.

Lemma forward_switch_passes_through_both_high_witness :
  existsb both_high
    (pin_states (new_events idle_reverse (setDirection 1 idle_reverse))
       (pins idle_reverse)) = true
  /\ last (pin_states (new_events idle_reverse (setDirection 1 idle_reverse))
             (pins idle_reverse))
     = Some (pins (setDirection 1 idle_reverse)).
Proof. apply (forward_switch_passes_through_both_high idle_reverse). reflexivity. Defined.

Lemma reverse_switch_avoids_both_high_witness :
  existsb both_high
    (pin_states (new_events manual_at_40 (setDirection 0 manual_at_40))
       (pins manual_at_40)) = false
  /\ last (pin_states (new_events manual_at_40 (setDirection 0 manual_at_40))
             (pins manual_at_40))
     = Some (pins (setDirection 0 manual_at_40)).
Proof.
  apply (reverse_switch_avoids_both_high 0 manual_at_40); [lia | reflexivity].
Defined.

Lemma motorOn_idempotent_witness :
  glob (motorOn (motorOn (world startup))) = glob (motorOn (world startup))
  /\ pins (motorOn (motorOn (world startup))) = pins (motorOn (world startup))
  /\ new_events (motorOn (world startup)) (motorOn (motorOn (world startup)))
     = [Printf "-> Motor already ON" []].
Proof.
  apply (motorOn_idempotent (world startup)).
  split; [split; [cbn; lia | left; repeat split] | left; split; reflexivity].
Defined.

Lemma motorOff_then_motorOn_resumes_witness :
  glob (motorOn (motorOff manual_at_40)) = glob manual_at_40
  /\ pwm_enable (pins (motorOn (motorOff manual_at_40))) = pwm_enable (pins manual_at_40)
  /\ led (pins (motorOn (motorOff manual_at_40))) = led (pins manual_at_40)
  /\ (in1 (pins (motorOn (motorOff manual_at_40))),
      in2 (pins (motorOn (motorOff manual_at_40))))
     = (if g_direction (glob manual_at_40) =? 1 then (1, 0) else (0, 1)).
Proof.
  apply (motorOff_then_motorOn_resumes manual_at_40);
    [exact hw_ok_manual_at_40 | reflexivity].
Defined.

Lemma command_read_up_to_line_end_witness :
  processCommand (H := sample_platform) 0 ("on" ++ String "013"%char (line "")) manual_at_40
  = processCommand (H := sample_platform) 0 "on" manual_at_40.
Proof.
  apply (command_read_up_to_line_end (H := sample_platform)
           0 "on" (line "") "013"%char manual_at_40);
    [reflexivity | reflexivity | right; reflexivity].
Defined.

Lemma auto_command_sets_target_and_motor_witness :
  g_control_mode (glob (processCommand (H := sample_platform) 0
                          ("auto " ++ "20000") manual_at_40)) = 1
  /\ g_desired_rpm (glob (processCommand (H := sample_platform) 0
                            ("auto " ++ "20000") manual_at_40))
     = clamp_target (atof (Platform := sample_platform) "20000")
  /\ (clamp_target (atof (Platform := sample_platform) "20000") <? 0)%float = false
  /\ (10000 <? clamp_target (atof (Platform := sample_platform) "20000"))%float = false
  /\ g_motor_on (glob (processCommand (H := sample_platform) 0
                         ("auto " ++ "20000") manual_at_40))
     = (if (0 <? clamp_target (atof (Platform := sample_platform) "20000"))%float
        then 1 else 0).
Proof.
  apply (auto_command_sets_target_and_motor (H := sample_platform)
           0 "20000" manual_at_40);
    [reflexivity | reflexivity | exact hw_ok_manual_at_40].
Defined.

Lemma plus_minus_saturate_witness :
  g_speed (glob (processCommand (H := sample_platform) 0 "+" manual_at_40))
  = Z.min 100 (g_speed (glob manual_at_40) + 10)
  /\ g_motor_on (glob (processCommand (H := sample_platform) 0 "+" manual_at_40)) = 1
  /\ g_speed (glob (processCommand (H := sample_platform) 0 "-" manual_at_40))
     = Z.max 0 (g_speed (glob manual_at_40) - 10)
  /\ g_motor_on (glob (processCommand (H := sample_platform) 0 "-" manual_at_40))
     = (if g_speed (glob manual_at_40) <=? 10 then 0 else 1).
Proof.
  apply (plus_minus_saturate (H := sample_platform) 0 manual_at_40);
    [cbn; lia | cbn; lia].
Defined.


Lemma quit_command_ends_in_cleanup_witness :
  main_loop (H := sample_platform) [quit_pass; timeout_pass 0 0 0] running_connected
  = cleanup (fst (main_cycle (H := sample_platform) quit_pass running_connected))
  /\ motor_stopped (world (main_loop (H := sample_platform)
                             [quit_pass; timeout_pass 0 0 0] running_connected))
  /\ pipes_closed (main_loop (H := sample_platform)
                     [quit_pass; timeout_pass 0 0 0] running_connected).
Proof.
  apply (quit_command_ends_in_cleanup (H := sample_platform)
           quit_pass (timeout_pass 0 0 0) [] running_connected (line "q")).
  - reflexivity.
  - reflexivity.
  - reflexivity.
  - left. split; reflexivity.
Defined.

Lemma loop_break_ends_in_cleanup_witness :
  motor_stopped (world (main_loop (H := sample_platform)
                          [console_eof_pass] running_connected))
  /\ pipes_closed (main_loop (H := sample_platform) [console_eof_pass] running_connected)
  /\ g_quit (glob (world (main_loop (H := sample_platform)
                            [console_eof_pass] running_connected))) = 1.
Proof.
  apply (loop_break_ends_in_cleanup (H := sample_platform)
           console_eof_pass [] running_connected).
  - reflexivity.
  - right. repeat split.
Defined.


Lemma pid_stamps_exactly_on_change_witness :
  g_last_speed_change_time
    (snd (pidController (H := sample_platform) 0 1500 700000 700001 stabilizing))
  = if fst (pidController (H := sample_platform) 0 1500 700000 700001 stabilizing)
       =? g_speed stabilizing
    then g_last_speed_change_time stabilizing else 700001.
Proof.
  apply (pid_stamps_exactly_on_change (H := sample_platform)
           0 1500 700000 700001 stabilizing).
  reflexivity.
Defined.

Lemma pid_gate_holds_everything_witness :
  pidController (H := sample_platform) 0 1500 201000 201001 stabilizing
  = (g_speed stabilizing, stabilizing).
Proof.
  apply (pid_gate_holds_everything (H := sample_platform)
           0 1500 201000 201001 stabilizing).
  - reflexivity.
  - cbn. lia.
  - reflexivity.
  - reflexivity.
Defined.

Lemma ring_keeps_last_1000_edges_witness :
  logged_edges (record_all [100000; 300000; 500000] (rpm_start (replicate 1000 0) 0))
  = drop (length [100000; 300000; 500000] - 1000) [100000; 300000; 500000].
Proof.
  apply (ring_keeps_last_1000_edges [100000; 300000; 500000] (replicate 1000 0) 0).
  reflexivity.
Defined.


Lemma constant_level_publishes_zero_witness :
  g_current_rpm (rpm_run [(1, 10, 20); (1, 150000, 150010)]
                   (rpm_start (replicate 1000 0) 1)) = 0%float
  /\ pulse_count (rpm_run [(1, 10, 20); (1, 150000, 150010)]
                    (rpm_start (replicate 1000 0) 1)) = 0
  /\ g_pulse_count (rpm_run [(1, 10, 20); (1, 150000, 150010)]
                      (rpm_start (replicate 1000 0) 1)) = 0.
Proof.
  apply (constant_level_publishes_zero [(1, 10, 20); (1, 150000, 150010)]
           (replicate 1000 0) 1).
  repeat constructor.
Defined.

Lemma computeRPM_matches_reference_witness :
  computeRPM ring_three_edges 600000
  = ref_estimate NUM_BLADES 600000 (logged_edges ring_three_edges)
  /\ computeRPM ring_three_edges 600000
     = (double_of_Z (ref_edges_in_window 600000 (logged_edges ring_three_edges))
        / double_of_Z NUM_BLADES * 120)%float.
Proof.
  apply (computeRPM_matches_reference ring_three_edges 600000).
  - reflexivity.
  - replace (logged_edges ring_three_edges) with [100000; 300000; 500000]
      by (vm_compute; reflexivity).
    repeat constructor; cbn; lia.
Defined.

Lemma tick_elapsed_spec_witness :
  tick_elapsed 5 4294967290
  = if 5 <? 4294967290 then ref_age 5 4294967290 - 1 else ref_age 5 4294967290.
Proof.
  apply (tick_elapsed_spec 5 4294967290); split; try lia; reflexivity.
Defined.

Lemma periodic_work_changes_nothing_outside_auto_witness :
  glob (world (phase_periodic (H := sample_platform) (timeout_pass 900 5 6)
                 status_connected))
  = glob (world status_connected)
  /\ pins (world (phase_periodic (H := sample_platform) (timeout_pass 900 5 6)
                    status_connected))
     = pins (world status_connected).
Proof.
  apply (periodic_work_changes_nothing_outside_auto (H := sample_platform)
           (timeout_pass 900 5 6) status_connected).
  left. cbn. lia.
Defined.


Lemma reconnect_attempt_every_tenth_pass_witness :
  count_reopens
    (events_since status_connected
       (run_passes (H := sample_platform)
          (replicate 12 (timeout_pass 0 0 0)) status_connected))
  = (pipe_reconnect_timer (bridge status_connected)
     + Z.of_nat (length (replicate 12 (timeout_pass 0 0 0)))) / 10
  /\ pipe_reconnect_timer
       (bridge (run_passes (H := sample_platform)
                  (replicate 12 (timeout_pass 0 0 0)) status_connected))
     = (pipe_reconnect_timer (bridge status_connected)
        + Z.of_nat (length (replicate 12 (timeout_pass 0 0 0)))) mod 10
  /\ g_pipe_fd
       (bridge (run_passes (H := sample_platform)
                  (replicate 12 (timeout_pass 0 0 0)) status_connected)) = -1.
Proof.
  apply (reconnect_attempt_every_tenth_pass (H := sample_platform)
           (replicate 12 (timeout_pass 0 0 0)) status_connected).
  - repeat constructor.
  - reflexivity.
  - cbn. lia.
Defined.


Lemma failed_write_silences_server_witness :
  Ble.pipe_out
    (Ble.run [Ble.PropertiesChanged Ble.DEVICE_IFACE (Some false); Ble.BeepThread 4]
       (Ble.write_to_pipe (line "on") next_write_fails)) = false
  /\ Ble.pipe_lines
       (Ble.new_events next_write_fails
          (Ble.run [Ble.PropertiesChanged Ble.DEVICE_IFACE (Some false);
                    Ble.BeepThread 4]
             (Ble.write_to_pipe (line "on") next_write_fails))) = [].
Proof.
  apply (failed_write_silences_server (line "on")
           [Ble.PropertiesChanged Ble.DEVICE_IFACE (Some false); Ble.BeepThread 4]
           [] next_write_fails); reflexivity.
Defined.

Lemma status_line_forwarded_without_prefix_witness :
  (Ble.fgets_line poll_one_line
   = Some ("rpm:" ++ "1234.56" ++ String "010"%char EmptyString) ->
   Ble.read_rpm_from_pipe poll_one_line notifying_server
   = Ble.emit (Ble.Notify ("1234.56" ++ String "010"%char EmptyString))
       notifying_server)
  /\ (forall other,
        Ble.fgets_line poll_one_line = Some other ->
        strncmp_eq (cut_at "010"%char (Ble.c_string other)) "rpm:" 4 = false ->
        Ble.read_rpm_from_pipe poll_one_line notifying_server = notifying_server).
Proof.
  apply (status_line_forwarded_without_prefix "1234.56" EmptyString
           poll_one_line notifying_server); reflexivity.
Defined.

Lemma cleanup_after_failed_write_closes_null_witness :
  In Ble.FcloseNull (Ble.new_events next_write_fails (Ble.cleanup_and_exit next_write_fails))
  /\ Ble.pipe_lines
       (Ble.new_events next_write_fails (Ble.cleanup_and_exit next_write_fails)) = []
  /\ Ble.pipe_out (Ble.cleanup_and_exit next_write_fails) = false.
Proof.
  apply (cleanup_after_failed_write_closes_null [] next_write_fails); reflexivity.
Defined.

Lemma first_beep_from_brake_is_silent_witness :
  Ble.pipe_lines (Ble.new_events Ble.started (Ble.beep_thread 4 Ble.started))
  = (line "s 50" :: line "on" :: line "off"
     :: concat (replicate (Z.to_nat (4 - 1)) [line "on"; line "off"]))%list
  /\ Forall (fun p => in1 p = 0 /\ in2 p = 0)
       (pin_states
          (new_events (world startup)
             (feed (H := sample_platform) 0 [line "s 50"; line "on"] (world startup)))
          (pins (world startup)))
  /\ g_motor_on
       (glob (feed (H := sample_platform) 0 [line "s 50"; line "on"] (world startup))) = 1
  /\ pwm_enable
       (pins (feed (H := sample_platform) 0 [line "s 50"; line "on"] (world startup)))
     = 127.
Proof.
  apply (first_beep_from_brake_is_silent (H := sample_platform) 0 4
           Ble.started (world startup)).
  - reflexivity.
  - reflexivity.
  - lia.
  - reflexivity.
  - cbn. lia.
  - reflexivity.
  - reflexivity.
Defined.
